(* Shallow embedding of the steamreviews ingestion and enrichment pipeline:
   the Steam incremental fetcher (src/steam_client.py, src/main_fetcher.py),
   the YouTube channel fetcher (scripts/youtube_fetcher.py), the bulk
   persister (src/database/crud.py, crud_youtube.py), the enrichment
   dispatchers (src/run_translator.py, src/run_analyzer.py and the services
   under src/processing), and the report's summary gather
   (src/reporting/excel_generator.py). *)

From Stdlib Require Import ZArith Lia String Ascii List Permutation Sorted.
From stdpp Require Import base gmap strings list.
Import ListNotations.
Local Open Scope Z_scope.
Local Open Scope string_scope.

(* ------------------------------------------------------------------ *)
(** * Python helpers *)
(* ------------------------------------------------------------------ *)
Module Py.

(** A Python [str] is represented by its UTF-8 encoding. [utf8_decode]
    gives its code points; a byte that does not start a well-formed
    sequence (it cannot occur in an encoded [str]) is decoded as -1. *)
Definition byte_of (c : ascii) : Z := Z.of_nat (nat_of_ascii c).

Definition is_cont (c : ascii) : bool := Z.eqb (Z.land (byte_of c) 192) 128.

Definition cont_bits (c : ascii) : Z := Z.land (byte_of c) 63.

Fixpoint utf8_decode (s : string) : list Z :=
  match s with
  | EmptyString => []
  | String c rest =>
      let b := byte_of c in
      if Z.ltb b 128 then b :: utf8_decode rest
      else if Z.eqb (Z.land b 224) 192 then
        match rest with
        | String c1 rest1 =>
            if is_cont c1 then Z.lor (Z.shiftl (Z.land b 31) 6) (cont_bits c1) :: utf8_decode rest1
            else (-1) :: utf8_decode rest
        | EmptyString => [-1]
        end
      else if Z.eqb (Z.land b 240) 224 then
        match rest with
        | String c1 (String c2 rest2) =>
            if is_cont c1 && is_cont c2 then
              Z.lor (Z.shiftl (Z.land b 15) 12) (Z.lor (Z.shiftl (cont_bits c1) 6) (cont_bits c2))
                :: utf8_decode rest2
            else (-1) :: utf8_decode rest
        | _ => (-1) :: utf8_decode rest
        end
      else if Z.eqb (Z.land b 248) 240 then
        match rest with
        | String c1 (String c2 (String c3 rest3)) =>
            if is_cont c1 && is_cont c2 && is_cont c3 then
              Z.lor (Z.shiftl (Z.land b 7) 18)
                (Z.lor (Z.shiftl (cont_bits c1) 12) (Z.lor (Z.shiftl (cont_bits c2) 6) (cont_bits c3)))
                :: utf8_decode rest3
            else (-1) :: utf8_decode rest
        | _ => (-1) :: utf8_decode rest
        end
      else (-1) :: utf8_decode rest
  end.

(** The UTF-8 encoding of one code point, and of a list of them. *)
Definition byte (z : Z) : ascii := ascii_of_N (Z.to_N z).

Definition encode_cp (cp : Z) : string :=
  if Z.ltb cp 128 then String (byte cp) EmptyString
  else if Z.ltb cp 2048 then
    String (byte (Z.lor 192 (Z.shiftr cp 6))) (String (byte (Z.lor 128 (Z.land cp 63))) EmptyString)
  else if Z.ltb cp 65536 then
    String (byte (Z.lor 224 (Z.shiftr cp 12)))
      (String (byte (Z.lor 128 (Z.land (Z.shiftr cp 6) 63)))
         (String (byte (Z.lor 128 (Z.land cp 63))) EmptyString))
  else
    String (byte (Z.lor 240 (Z.shiftr cp 18)))
      (String (byte (Z.lor 128 (Z.land (Z.shiftr cp 12) 63)))
         (String (byte (Z.lor 128 (Z.land (Z.shiftr cp 6) 63)))
            (String (byte (Z.lor 128 (Z.land cp 63))) EmptyString))).

Fixpoint utf8_encode (cps : list Z) : string :=
  match cps with
  | [] => EmptyString
  | cp :: rest => encode_cp cp ++ utf8_encode rest
  end.

(** Python's [str.isspace] on one code point (the whitespace [str.strip()]
    removes): \t \n \v \f \r, \x1c..\x1f, the space, U+0085, U+00A0,
    U+1680, U+2000..U+200A, U+2028, U+2029, U+202F, U+205F and U+3000. *)
Definition isspace (cp : Z) : bool :=
  (Z.leb 9 cp && Z.leb cp 13) || (Z.leb 28 cp && Z.leb cp 32)
  || Z.eqb cp 133 || Z.eqb cp 160 || Z.eqb cp 5760
  || (Z.leb 8192 cp && Z.leb cp 8202)
  || Z.eqb cp 8232 || Z.eqb cp 8233 || Z.eqb cp 8239 || Z.eqb cp 8287 || Z.eqb cp 12288.

(** [not s.strip()]: the string is empty once the whitespace is stripped. *)
Definition strip_is_empty (s : string) : bool := forallb isspace (utf8_decode s).


(** [s.startswith(p)]. *)
Definition startswith (s p : string) : bool := String.prefix p s.

(** Truthiness of a string. *)
Definition str_truthy (s : string) : bool :=
  match s with EmptyString => false | _ => true end.

(** Truthiness of an [Optional[int]]. *)
Definition opt_int_truthy (o : option Z) : bool :=
  match o with None => false | Some z => negb (Z.eqb z 0) end.

(** [xs[i]] with Python's negative indices; [None] is an IndexError. *)
Definition index {A} (xs : list A) (i : Z) : option A :=
  let j := if Z.ltb i 0 then Z.of_nat (length xs) + i else i in
  if Z.ltb j 0 then None else nth_error xs (Z.to_nat j).

(** The longest prefix whose elements satisfy [f]. *)
Fixpoint take_while {A} (f : A -> bool) (l : list A) : list A :=
  match l with
  | [] => []
  | x :: rest => if f x then x :: take_while f rest else []
  end.

End Py.

(* ------------------------------------------------------------------ *)
(** * Idempotent bulk persister (src/database/crud.py, crud_youtube.py) *)
(* ------------------------------------------------------------------ *)
Module Persist.

(** The insert dictionary built by [run_fetcher] for one review; the
    columns the pipeline reads are kept, [voted_up] is [None] when the
    source gave a JSON null (a NOT NULL column of [reviews]). *)
Record row := mkRow {
  recommendationid : Z;
  app_id : Z;
  original_language : string;
  original_review_text : string;
  english_translation : option string;
  translation_status : string;
  analysis_status : string;
  timestamp_created : Z;
  voted_up : option bool
}.

(** The NOT NULL constraints of the [reviews] table on the modelled
    columns: a row violating one makes the whole INSERT statement fail. *)
Definition row_valid (r : row) : bool :=
  match voted_up r with Some _ => true | None => false end.

(** Outcome of a Python call: it returns, or it raises. *)
Inductive outcome := Returned | Raised.

(** [INSERT ... VALUES rows ON CONFLICT (recommendationid) DO NOTHING]:
    the statement fails as a whole when a row violates a constraint;
    otherwise each row whose id is already present (in the table or
    earlier in the batch) is skipped. *)
Definition insert_ignore (acc : gmap Z row) (r : row) : gmap Z row :=
  match acc !! recommendationid r with
  | Some _ => acc
  | None => <[recommendationid r := r]> acc
  end.

Definition insert_do_nothing (s : gmap Z row) (rows : list row) : option (gmap Z row) :=
  if forallb row_valid rows then Some (foldl insert_ignore s rows) else None.

(** [add_reviews_bulk]: empty input returns early; an error of the
    statement is logged and rolled back, and the function returns. *)
Definition add_reviews_bulk (s : gmap Z row) (reviews_data : list row) : outcome * gmap Z row :=
  match reviews_data with
  | [] => (Returned, s)
  | _ =>
      match insert_do_nothing s reviews_data with
      | Some s' => (Returned, s')      (* db.commit() *)
      | None => (Returned, s)          (* except Exception: db.rollback() *)
      end
  end.

(** A stored YouTube video row. *)
Record video := mkVideo {
  v_channel_id : string;
  v_upload_ts : option Z   (* upload_date, NULL when unknown *)
}.

(** [add_video]: an IntegrityError on the primary key rolls back and
    returns the existing row; [false] in the second component models a
    SQLAlchemyError (rollback, [None] returned). *)
Definition add_video (s : gmap string video) (video_id : string) (v : video) (db_ok : bool)
  : option video * gmap string video :=
  if negb db_ok then (None, s) else
  match s !! video_id with
  | Some existing => (Some existing, s)
  | None => (Some v, <[video_id := v]> s)
  end.

End Persist.

(* ------------------------------------------------------------------ *)
(** * Steam incremental fetcher (src/steam_client.py, src/main_fetcher.py) *)
(* ------------------------------------------------------------------ *)
Module Steam.
Import Persist.

(** One entry of the ["reviews"] array of the Steam API. *)
Record review_data := mkReviewData {
  rd_recommendationid : Z;
  rd_language : string;
  rd_review : string;
  rd_timestamp_created : Z;
  rd_voted_up : option bool
}.

(** The response to one page request of [fetch_reviews]. *)
Inductive response :=
| Resp_status_error                 (* status_code != 200 *)
| Resp_json_error                   (* response.json() raised *)
| Resp_exception                    (* requests.get raised (timeout, connection) *)
| Resp_json (success : bool) (reviews : option (list review_data)) (cursor : option string).

(** [if after_timestamp and review_timestamp <= after_timestamp]. *)
Definition cutoff_hit (after_timestamp : option Z) (ts : Z) : bool :=
  Py.opt_int_truthy after_timestamp &&
  match after_timestamp with Some a => Z.leb ts a | None => false end.

(** The inner [for review_data in batch] loop: the new reviews of the
    batch, [current_batch_latest_ts], and [stop_fetching]. *)
Fixpoint scan_batch (after_timestamp : option Z) (batch : list review_data) (current_batch_latest_ts : Z)
  : list review_data * Z * bool :=
  match batch with
  | [] => ([], current_batch_latest_ts, false)
  | rd :: rest =>
      let ts := rd_timestamp_created rd in
      let cur := Z.max current_batch_latest_ts ts in
      if cutoff_hit after_timestamp ts then ([], cur, true)
      else let '(l, c, stop) := scan_batch after_timestamp rest cur in (rd :: l, c, stop)
  end.

(** Truthiness of the Steam cursor. *)
Definition cursor_truthy (c : option string) : bool :=
  match c with None => false | Some s => Py.str_truthy s end.

(** The [while True] loop of [fetch_reviews]. [pages] are the responses to
    the successive page requests; running out of them is a request that
    raised (caught, [break]). *)
Fixpoint fetch_loop (after_timestamp : option Z) (pages : list response)
    (reviews : list review_data) (latest_timestamp_in_batch : Z) (next_cursor : option string)
  : list review_data * Z * option string :=
  match pages with
  | [] => (reviews, latest_timestamp_in_batch, next_cursor)
  | p :: ps =>
      match p with
      | Resp_status_error | Resp_json_error | Resp_exception =>
          (reviews, latest_timestamp_in_batch, next_cursor)
      | Resp_json success rs cursor =>
          if negb success then (reviews, latest_timestamp_in_batch, cursor) else
          match rs with
          | None | Some [] => (reviews, latest_timestamp_in_batch, cursor)
          | Some batch =>
              let '(new_reviews_in_batch, current_batch_latest_ts, stop_fetching) :=
                scan_batch after_timestamp batch 0 in
              let reviews' := (reviews ++ new_reviews_in_batch)%list in
              let latest' := Z.max latest_timestamp_in_batch current_batch_latest_ts in
              if stop_fetching then (reviews', latest', cursor)
              else if negb (cursor_truthy cursor) then (reviews', latest', cursor)
              else fetch_loop after_timestamp ps reviews' latest' cursor
          end
      end
  end.

(** [SteamAPI.fetch_reviews]: reviews, highest timestamp seen, next cursor. *)
Definition fetch_reviews (after_timestamp : option Z) (pages : list response)
  : list review_data * Z * option string :=
  fetch_loop after_timestamp pages [] 0 None.

(** The [insert_dict] of [run_fetcher] for one fetched review. *)
Definition insert_dict (appid : Z) (r : review_data) : row :=
  let is_english := String.eqb (rd_language r) "english" in
  {| recommendationid := rd_recommendationid r;
     app_id := appid;
     original_language := rd_language r;
     original_review_text := rd_review r;
     english_translation := if is_english then Some (rd_review r) else None;
     translation_status := if is_english then "not_required" else "pending";
     analysis_status := "pending";
     timestamp_created := rd_timestamp_created r;
     voted_up := rd_voted_up r |}.

(** One iteration of [run_fetcher]'s loop over apps: the review store and
    the app's [last_fetched_timestamp] after the cycle. *)
Definition fetch_cycle (s : gmap Z row) (appid last_fetch : Z) (pages : list response)
  : gmap Z row * Z :=
  let '(new_reviews, highest_ts_in_run, _) := fetch_reviews (Some last_fetch) pages in
  match new_reviews with
  | [] => (s, last_fetch)
  | _ =>
      let s' := snd (add_reviews_bulk s (map (insert_dict appid) new_reviews)) in
      if Z.ltb last_fetch highest_ts_in_run then (s', highest_ts_in_run) else (s', last_fetch)
  end.

(** A sequence of scheduled runs for one app: the marks after each run. *)
Fixpoint run_cycles (s : gmap Z row) (appid last_fetch : Z) (runs : list (list response)) : list Z :=
  match runs with
  | [] => []
  | pages :: rest =>
      let '(s', m) := fetch_cycle s appid last_fetch pages in
      m :: run_cycles s' appid m rest
  end.

End Steam.

(* ------------------------------------------------------------------ *)
(** * Tracked apps and the fetcher run over them (src/database/crud.py,
      src/main_fetcher.py) *)
(* ------------------------------------------------------------------ *)
Module Tracked.
Import Persist Steam.

(** A [tracked_apps] row: [name] is NOT NULL, [last_fetched_timestamp]
    is nullable. *)
Record tracked_app := mkTrackedApp {
  ta_name : string;
  ta_is_active : bool;
  ta_last_fetched_timestamp : option Z
}.

(** PostgreSQL's [Integer] column type ([int4]). *)
Definition in_int4 (z : Z) : bool := Z.leb (-2147483648) z && Z.leb z 2147483647.

(** The value a [String(255)] ([varchar(255)]) column stores for [n], or
    [None] when the statement fails: a NUL character (the driver refuses
    the literal) or more than 255 characters, unless the excess characters
    are all spaces, which are then cut off. *)
Definition stored_name (n : string) : option string :=
  let cps := Py.utf8_decode n in
  if existsb (Z.eqb 0) cps then None
  else if Nat.leb (length cps) 255 then Some n
  else if forallb (Z.eqb 32) (skipn 255 cps) then Some (Py.utf8_encode (firstn 255 cps))
  else None.

(** [crud.add_tracked_app]: [INSERT ... ON CONFLICT (app_id) DO NOTHING]
    of a row with [last_fetched_timestamp=0] and [is_active=True]. The
    statement fails, is rolled back, and nothing is added when [name=None]
    (the default; [name] is NOT NULL), when [app_id] is outside [int4], or
    when [stored_name] refuses the name. *)
Definition add_tracked_app (apps : gmap Z tracked_app) (app_id : Z) (name : option string)
  : gmap Z tracked_app :=
  match name with
  | None => apps
  | Some n =>
      if negb (in_int4 app_id) then apps else
      match stored_name n with
      | None => apps
      | Some n' =>
          match apps !! app_id with
          | Some _ => apps
          | None => <[app_id := mkTrackedApp n' true (Some 0)]> apps
          end
      end
  end.

(** [crud.update_app_active_status]: an UPDATE by id (no row: no change). *)
Definition update_app_active_status (apps : gmap Z tracked_app) (app_id : Z) (is_active : bool)
  : gmap Z tracked_app :=
  match apps !! app_id with
  | Some a => <[app_id := mkTrackedApp (ta_name a) is_active (ta_last_fetched_timestamp a)]> apps
  | None => apps
  end.

(** [crud.update_last_fetch_time]. *)
Definition update_last_fetch_time (apps : gmap Z tracked_app) (app_id : Z) (timestamp : Z)
  : gmap Z tracked_app :=
  match apps !! app_id with
  | Some a => <[app_id := mkTrackedApp (ta_name a) (ta_is_active a) (Some timestamp)]> apps
  | None => apps
  end.

(** [crud.get_active_tracked_apps] without its ORDER BY: the active rows
    (the query returns them ordered by [name] under the database's
    collation, which the run is stated for in any order). *)
Definition get_active_tracked_apps (apps : gmap Z tracked_app) : list (Z * tracked_app) :=
  List.filter (fun kv => ta_is_active kv.2) (map_to_list apps).

(** [crud.get_app_last_update_time]: [.scalar()] of the column; [None]
    for a missing row or a NULL value. *)
Definition get_app_last_update_time (apps : gmap Z tracked_app) (app_id : Z) : option Z :=
  match apps !! app_id with
  | Some a => ta_last_fetched_timestamp a
  | None => None
  end.

(** [app.last_fetched_timestamp or 0]. *)
Definition last_fetch_of (a : tracked_app) : Z :=
  match ta_last_fetched_timestamp a with Some t => t | None => 0 end.

(** One iteration of the [for app in apps_to_check] loop of [run_fetcher]:
    the review store and the [tracked_apps] table afterwards. *)
Definition fetch_app (s : gmap Z row) (apps : gmap Z tracked_app) (app : Z * tracked_app)
    (pages : list response) : gmap Z row * gmap Z tracked_app :=
  let '(app_id, a) := app in
  let last_fetch := last_fetch_of a in
  let '(new_reviews, highest_ts_in_run, _) := fetch_reviews (Some last_fetch) pages in
  match new_reviews with
  | [] => (s, apps)
  | _ =>
      let s' := snd (add_reviews_bulk s (map (insert_dict app_id) new_reviews)) in
      if Z.ltb last_fetch highest_ts_in_run
      then (s', update_last_fetch_time apps app_id highest_ts_in_run)
      else (s', apps)
  end.

(** [run_fetcher] over the loaded [apps_to_check]; [pages] gives the
    Steam responses for each app id. *)
Fixpoint run_fetcher (s : gmap Z row) (apps : gmap Z tracked_app) (apps_to_check : list (Z * tracked_app))
    (pages : Z -> list response) : gmap Z row * gmap Z tracked_app :=
  match apps_to_check with
  | [] => (s, apps)
  | app :: rest =>
      let '(s', apps') := fetch_app s apps app (pages (fst app)) in
      run_fetcher s' apps' rest pages
  end.

End Tracked.

(* ------------------------------------------------------------------ *)
(** * YouTube channel fetcher (scripts/youtube_fetcher.py) *)
(* ------------------------------------------------------------------ *)
Module YouTube.
Import Persist.

(** What the collaborators answer for one video id: the Supadata metadata
    ([None]: no metadata; [Some None]: no or unparsable [uploadDate];
    [Some (Some ts)]: the parsed upload timestamp) and whether the INSERT
    of [crud.add_video] succeeds. *)
Record video_env := mkVideoEnv {
  get_video_metadata : string -> option (option Z);
  add_video_db_ok : string -> bool
}.

(** The fields of the [result] dict of [_process_single_video] that
    [process_channel] reads for the high-water mark. *)
Record video_result := mkVideoResult {
  vr_status : string;
  vr_new_video_added : bool;
  vr_upload_timestamp : Z
}.

(** [_process_single_video] up to the transcript fetch (which sets only
    the transcript flags and the status). *)
Definition process_single_video (vs : gmap string video) (video_id channel_id : string)
    (env : video_env) (effective_cutoff_ts : Z) : video_result * gmap string video :=
  match vs !! video_id with
  | Some existing =>
      (mkVideoResult "skipped" false (match v_upload_ts existing with Some t => t | None => 0 end), vs)
  | None =>
      match get_video_metadata env video_id with
      | None => (mkVideoResult "metadata_failed" false 0, vs)
      | Some upload_date =>
          let upload_date_ts := match upload_date with Some t => t | None => 0 end in
          if Z.leb upload_date_ts effective_cutoff_ts then
            (mkVideoResult "skipped_older_than_effective_cutoff" false upload_date_ts, vs)
          else
            (* result["status"] = "processing"; result["new_video_added"] = True *)
            let '(added_video, vs') :=
              add_video vs video_id (mkVideo channel_id upload_date) (add_video_db_ok env video_id) in
            match added_video with
            | None => (mkVideoResult "db_add_failed" true upload_date_ts, vs')
            | Some _ => (mkVideoResult "processing" true upload_date_ts, vs')
            end
      end
  end.

(** [crud.get_latest_video_upload_timestamp_for_channel]: the largest
    stored upload timestamp of the channel's videos, [None] if there is none. *)
Definition get_latest_video_upload_timestamp_for_channel (vs : gmap string video) (channel_id : string)
  : option Z :=
  map_fold (fun _ v acc =>
              if String.eqb (v_channel_id v) channel_id then
                match v_upload_ts v with
                | Some t => Some (match acc with Some a => Z.max a t | None => t end)
                | None => acc
                end
              else acc) None vs.

(** [... or 0]. *)
Definition true_latest_known_video_ts_in_db (vs : gmap string video) (channel_id : string) : Z :=
  match get_latest_video_upload_timestamp_for_channel vs channel_id with
  | Some t => t
  | None => 0
  end.

(** [max(true_latest_known_video_ts_in_db, int(safety_cutoff_dt.timestamp()))]
    with [safety_cutoff_dt = now - timedelta(days=max_age_days)]. *)
Definition effective_cutoff_ts (vs : gmap string video) (channel_id : string) (now max_age_days : Z) : Z :=
  Z.max (true_latest_known_video_ts_in_db vs channel_id) (now - max_age_days * 86400).

(** The result of [client.get_channel_videos]. *)
Inductive video_list :=
| VL_none                    (* returned None *)
| VL_ids (ids : list string)
| VL_raised.                 (* raised SupadataAPIError or another exception *)

(** The futures' results folded into [highest_ts_of_newly_added_video_this_run]
    (the per-video sessions touch distinct rows; the fold is a [max]). *)
Fixpoint run_videos (vs : gmap string video) (ids : list string) (channel_id : string)
    (env : video_env) (cutoff : Z) (highest : Z) : Z * gmap string video :=
  match ids with
  | [] => (highest, vs)
  | vid :: rest =>
      let '(r, vs') := process_single_video vs vid channel_id env cutoff in
      let highest' := if vr_new_video_added r then Z.max highest (vr_upload_timestamp r) else highest in
      run_videos vs' rest channel_id env cutoff highest'
  end.

Record channel := mkChannel {
  ch_id : string;
  ch_handle : option string;
  ch_last_checked_timestamp : Z
}.

Definition handle_truthy (h : option string) : bool :=
  match h with None => false | Some s => Py.str_truthy s end.

(** The range of an aware [datetime]: [datetime(1, 1, 1, tzinfo=utc)]
    and [datetime(9999, 12, 31, 23, 59, 59, tzinfo=utc)] as POSIX
    timestamps. [datetime.fromtimestamp(t, tz=timezone.utc)] raises above
    [MAX_TS]; [now - timedelta(days=d)] raises (OverflowError) when
    [abs d > 999999999] or when the result leaves the range. *)
Definition MIN_TS : Z := -62135596800.
Definition MAX_TS : Z := 253402300799.

(** [datetime.fromtimestamp(t, tz=timezone.utc)] raises. *)
Definition fromtimestamp_raises (t : Z) : bool := Z.ltb MAX_TS t.

(** The statements of [process_channel] before its [try:] (lines 170-181)
    raise: the three log lines that format a positive timestamp with
    [fromtimestamp], and [datetime.now(timezone.utc) - timedelta(days=max_age_days)]
    ([now] is the clock in whole seconds). The exception escapes
    [process_channel]. *)
Definition prelude_raises (vs : gmap string video) (ch : channel) (now max_age_days : Z) : bool :=
  let true_latest := true_latest_known_video_ts_in_db vs (ch_id ch) in
  let safety := now - max_age_days * 86400 in
  let cutoff := effective_cutoff_ts vs (ch_id ch) now max_age_days in
  (Z.ltb 0 true_latest && fromtimestamp_raises true_latest)
  || (Z.ltb 0 (ch_last_checked_timestamp ch) && fromtimestamp_raises (ch_last_checked_timestamp ch))
  || Z.ltb 999999999 (Z.abs max_age_days)
  || negb (Z.leb MIN_TS safety && Z.leb safety MAX_TS)
  || (Z.ltb 0 cutoff && fromtimestamp_raises cutoff).

(** [process_channel]: the video store and the channel's
    [last_checked_timestamp] after the call ([now] is the run's clock).
    When the statements before the [try:] raise, nothing is written and
    the exception propagates to [run_youtube_fetcher] (see [YouTubeRun]). *)
Definition process_channel (vs : gmap string video) (ch : channel) (now max_age_days : Z)
    (resp : video_list) (env : video_env) : gmap string video * Z :=
  let true_latest := true_latest_known_video_ts_in_db vs (ch_id ch) in
  let cutoff := effective_cutoff_ts vs (ch_id ch) now max_age_days in
  if prelude_raises vs ch now max_age_days then (vs, ch_last_checked_timestamp ch) else
  if negb (handle_truthy (ch_handle ch)) then (vs, now) else
  match resp with
  | VL_raised => (vs, ch_last_checked_timestamp ch)
  | VL_none => (vs, now)
  | VL_ids [] => (vs, now)
  | VL_ids ids =>
      let '(highest, vs') := run_videos vs ids (ch_id ch) env cutoff 0 in
      if Z.ltb true_latest highest then (vs', highest)
      else (vs', ch_last_checked_timestamp ch)
  end.

End YouTube.

(* ------------------------------------------------------------------ *)
(** * The YouTube tables with their status columns, the transcript stage
      of the fetcher worker and the analyzer worker
      (src/database/crud_youtube.py, scripts/youtube_fetcher.py,
      scripts/youtube_analyzer_worker.py) *)
(* ------------------------------------------------------------------ *)
Module YouTubeStore.
Import Persist YouTube.

(** A [YouTubeFeedbackAnalysisResult.model_dump()]: the [is_relevant]
    field and the other fields. *)
Record video_analysis := mkVideoAnalysis {
  va_is_relevant : bool;
  va_fields : list (string * string)
}.

(** The YouTube tables: [youtube_videos] with its [transcript_status] and
    [analysis_status] columns kept as maps over the same ids,
    [video_transcripts] (only language ['en'] is ever written, so it is
    keyed by the video id) and [video_feedback_analysis]. *)
Record yt_store := mkYtStore {
  yt_videos : gmap string video;
  yt_transcript_status : gmap string string;
  yt_analysis_status : gmap string string;
  yt_transcripts : gmap string string;
  yt_analyses : gmap string video_analysis
}.

(** [crud.update_video_transcript_status]: an UPDATE by id returning
    [rowcount > 0]; [db_ok = false] models a SQLAlchemyError (rollback,
    [False]). *)
Definition update_video_transcript_status (st : yt_store) (video_id status : string) (db_ok : bool)
  : bool * yt_store :=
  if negb db_ok then (false, st) else
  match yt_videos st !! video_id with
  | Some _ =>
      (true, mkYtStore (yt_videos st) (<[video_id := status]> (yt_transcript_status st))
                       (yt_analysis_status st) (yt_transcripts st) (yt_analyses st))
  | None => (false, st)
  end.

(** [crud.update_video_analysis_status]. *)
Definition update_video_analysis_status (st : yt_store) (video_id status : string) (db_ok : bool)
  : bool * yt_store :=
  if negb db_ok then (false, st) else
  match yt_videos st !! video_id with
  | Some _ =>
      (true, mkYtStore (yt_videos st) (yt_transcript_status st)
                       (<[video_id := status]> (yt_analysis_status st)) (yt_transcripts st) (yt_analyses st))
  | None => (false, st)
  end.

(** [crud.add_transcript] for language ['en']: the INSERT fails with an
    IntegrityError when the (video, 'en') row exists (the existing row is
    returned) or the video does not (the query finds nothing);
    [insert_ok = false] models another SQLAlchemyError, after which the
    video's status is set to ['failed']. On success the status is set to
    ['fetched']. [upd_ok] is the outcome of those status UPDATEs. The
    returned ORM row is represented by its text. *)
Definition add_transcript (st : yt_store) (video_id transcript_text : string) (insert_ok upd_ok : bool)
  : option string * yt_store :=
  if negb insert_ok then
    (None, snd (update_video_transcript_status st video_id "failed" upd_ok))
  else
  match yt_transcripts st !! video_id, yt_videos st !! video_id with
  | Some existing, _ => (Some existing, st)
  | None, None => (None, st)
  | None, Some _ =>
      let st1 := mkYtStore (yt_videos st) (yt_transcript_status st) (yt_analysis_status st)
                           (<[video_id := transcript_text]> (yt_transcripts st)) (yt_analyses st) in
      (Some transcript_text, snd (update_video_transcript_status st1 video_id "fetched" upd_ok))
  end.

(** [crud.get_videos_for_analysis]: the videos joined with their
    transcript row, with [transcript_status = 'fetched'] and
    [analysis_status = 'pending'], at most [limit] of them. *)
Definition analysis_eligible (st : yt_store) (video_id : string) : bool :=
  bool_decide (yt_transcript_status st !! video_id = Some "fetched") &&
  bool_decide (yt_analysis_status st !! video_id = Some "pending") &&
  bool_decide (is_Some (yt_transcripts st !! video_id)).

Definition get_videos_for_analysis (st : yt_store) (limit : nat) : list string :=
  firstn limit (List.filter (analysis_eligible st) (map fst (map_to_list (yt_videos st)))).

(** A video stored with transcript and analysis status ['pending']: the
    state [add_video] leaves when the transcript stage does not finish. *)
Definition stuck_pending (st : yt_store) (video_id : string) : Prop :=
  is_Some (yt_videos st !! video_id) /\
  yt_transcript_status st !! video_id = Some "pending" /\
  yt_analysis_status st !! video_id = Some "pending".

(** What the collaborators of the transcript stage answer for one video:
    [client.get_transcript] ([None]: it raised; [Some None]: it returned
    [None]), whether the transcript INSERT commits, and whether the status
    UPDATEs commit. *)
Record transcript_env := mkTranscriptEnv {
  get_transcript : string -> option (option string);
  add_transcript_db_ok : string -> bool;
  status_update_db_ok : string -> bool
}.

(** The whole [result] dict of [_process_single_video]. *)
Record worker_result := mkWorkerResult {
  wr_status : string;
  wr_new_video_added : bool;
  wr_transcript_fetched : bool;
  wr_transcript_failed : bool;
  wr_transcript_unavailable : bool;
  wr_upload_timestamp : Z
}.

Definition of_video_result (r : video_result) : worker_result :=
  mkWorkerResult (vr_status r) (vr_new_video_added r) false false false (vr_upload_timestamp r).

Definition set_transcript_outcome (r : worker_result) (status : string) (fetched failed unavailable : bool)
  : worker_result :=
  mkWorkerResult status (wr_new_video_added r) fetched failed unavailable (wr_upload_timestamp r).

(** The transcript stage of [_process_single_video] (after [add_video]
    returned the new row); an exception of [client.get_transcript] lands in
    the worker's [except Exception] ([status = "worker_exception"], the
    flags set so far kept). *)
Definition transcript_stage (st : yt_store) (video_id : string) (r : worker_result) (tenv : transcript_env)
  : worker_result * yt_store :=
  let upd_ok := status_update_db_ok tenv video_id in
  match get_transcript tenv video_id with
  | None => (set_transcript_outcome r "worker_exception" false false false, st)
  | Some transcript_text =>
      if bool_decide (transcript_text = Some "UNAVAILABLE") then
        (set_transcript_outcome r "transcript_unavailable" false false true,
         snd (update_video_transcript_status st video_id "unavailable" upd_ok))
      else
      match transcript_text with
      | Some t =>
          if Py.str_truthy t then
            let '(added_transcript, st') :=
              add_transcript st video_id t (add_transcript_db_ok tenv video_id) upd_ok in
            match added_transcript with
            | Some _ => (set_transcript_outcome r "transcript_fetched" true false false, st')
            | None => (set_transcript_outcome r "transcript_failed" false true false, st')
            end
          else
            (set_transcript_outcome r "transcript_failed" false true false,
             snd (update_video_transcript_status st video_id "failed" upd_ok))
      | None =>
          (set_transcript_outcome r "transcript_failed" false true false,
           snd (update_video_transcript_status st video_id "failed" upd_ok))
      end
  end.

(** [_process_single_video] on the whole store: the part up to [add_video]
    is [process_single_video], whose status is ["processing"] exactly when
    [add_video] inserted the new row, with [transcript_status] and
    [analysis_status] both ['pending']; the transcript stage follows. *)
Definition process_single_video_full (st : yt_store) (video_id channel_id : string)
    (env : video_env) (tenv : transcript_env) (effective_cutoff_ts : Z) : worker_result * yt_store :=
  let '(r, vs') := process_single_video (yt_videos st) video_id channel_id env effective_cutoff_ts in
  if String.eqb (vr_status r) "processing" then
    let st1 := mkYtStore vs' (<[video_id := "pending"]> (yt_transcript_status st))
                         (<[video_id := "pending"]> (yt_analysis_status st))
                         (yt_transcripts st) (yt_analyses st) in
    transcript_stage st1 video_id (of_video_result r) tenv
  else (of_video_result r, mkYtStore vs' (yt_transcript_status st) (yt_analysis_status st)
                                     (yt_transcripts st) (yt_analyses st)).

(** The futures of [process_channel] folded over the store, as
    [run_videos] does for the video rows. *)
Fixpoint run_videos_full (st : yt_store) (ids : list string) (channel_id : string)
    (env : video_env) (tenv : transcript_env) (cutoff highest : Z) : Z * yt_store :=
  match ids with
  | [] => (highest, st)
  | vid :: rest =>
      let '(r, st') := process_single_video_full st vid channel_id env tenv cutoff in
      let highest' := if wr_new_video_added r then Z.max highest (wr_upload_timestamp r) else highest in
      run_videos_full st' rest channel_id env tenv cutoff highest'
  end.

(** What the collaborators of the analyzer worker answer for one video:
    the game name found through the video's channel, influencer and first
    active mapping, [analyzer.analyze_video_transcript] ([None] also for
    an exception, which the worker treats as a failure), whether the
    analysis row commits, and whether the status UPDATEs commit. *)
Record analyzer_env := mkAnalyzerEnv {
  game_name_of : string -> option string;
  analyze_video_transcript : string -> string -> option video_analysis;
  add_analysis_db_ok : string -> bool;
  analysis_status_db_ok : string -> bool
}.

(** [crud.add_or_update_analysis]: the row is written (a new row, or every
    field of the existing one), then the status is set to ['analyzed'] or
    ['irrelevant'] by [is_relevant]; on a SQLAlchemyError (also the foreign
    key of a missing video) the status is set to ['failed']. *)
Definition add_or_update_analysis (st : yt_store) (video_id : string) (analysis_data : video_analysis)
    (db_ok upd_ok : bool) : option video_analysis * yt_store :=
  let status_to_set := if va_is_relevant analysis_data then "analyzed" else "irrelevant" in
  if db_ok && bool_decide (is_Some (yt_videos st !! video_id)) then
    let st1 := mkYtStore (yt_videos st) (yt_transcript_status st) (yt_analysis_status st)
                         (yt_transcripts st) (<[video_id := analysis_data]> (yt_analyses st)) in
    (Some analysis_data, snd (update_video_analysis_status st1 video_id status_to_set upd_ok))
  else
    (None, snd (update_video_analysis_status st video_id "failed" upd_ok)).

(** One iteration of the loop of [run_youtube_analyzer]. *)
Definition analyze_one (st : yt_store) (aenv : analyzer_env) (video_id : string) : yt_store :=
  let upd_ok := analysis_status_db_ok aenv video_id in
  let failed := snd (update_video_analysis_status st video_id "failed" upd_ok) in
  match yt_transcripts st !! video_id with
  | None => failed
  | Some transcript_text =>
      if negb (Py.str_truthy transcript_text) then failed else
      match game_name_of aenv video_id with
      | None => failed
      | Some game_name =>
          if negb (Py.str_truthy game_name) then failed else
          match analyze_video_transcript aenv transcript_text game_name with
          | Some analysis_result_dict =>
              snd (add_or_update_analysis st video_id analysis_result_dict
                                          (add_analysis_db_ok aenv video_id) upd_ok)
          | None => failed
          end
      end
  end.

Definition BATCH_SIZE : nat := 20.

(** [run_youtube_analyzer]: one batch of [get_videos_for_analysis]. *)
Definition run_youtube_analyzer (st : yt_store) (aenv : analyzer_env) : yt_store :=
  fold_left (fun acc vid => analyze_one acc aenv vid) (get_videos_for_analysis st BATCH_SIZE) st.

(** The foreign keys and defaults of the tables: a [youtube_videos] row
    has both status columns, and every transcript and analysis row belongs
    to a stored video. *)
Definition store_keyed (st : yt_store) : Prop :=
  (forall k, is_Some (yt_transcript_status st !! k) <-> is_Some (yt_videos st !! k)) /\
  (forall k, is_Some (yt_analysis_status st !! k) <-> is_Some (yt_videos st !! k)) /\
  (forall k, is_Some (yt_transcripts st !! k) -> is_Some (yt_videos st !! k)) /\
  (forall k, is_Some (yt_analyses st !! k) -> is_Some (yt_videos st !! k)).

(** The outcome of one analyzer iteration on a stored video. *)
Definition analysis_settled (st : yt_store) (vid : string) : Prop :=
  (yt_analysis_status st !! vid = Some "analyzed" /\
     exists a, yt_analyses st !! vid = Some a /\ va_is_relevant a = true) \/
  (yt_analysis_status st !! vid = Some "irrelevant" /\
     exists a, yt_analyses st !! vid = Some a /\ va_is_relevant a = false) \/
  yt_analysis_status st !! vid = Some "failed".

End YouTubeStore.

(* ------------------------------------------------------------------ *)
(** * The YouTube fetcher run (scripts/youtube_fetcher.py) *)
(* ------------------------------------------------------------------ *)
Module YouTubeRun.
Import Persist YouTube.









End YouTubeRun.

(* ------------------------------------------------------------------ *)
(** * The synchronous LLM client (src/openai_client.py) *)
(* ------------------------------------------------------------------ *)
Module LLM.

(** A chat message: role and content. *)
Definition message := (string * string)%type.

(** Python values passed as call arguments. *)
Inductive pyval :=
| VStr (s : string)
| VMessages (m : list message)
| VNum (z : Z).

(** The exceptions that can come out of [call_openai_api]. [TypeError] is
    the one [isinstance] raises in tenacity's retry predicate;
    [TypeError_binding] is the one CPython raises when the arguments of
    the call cannot be bound. *)
Inductive exc :=
| APITimeoutError | APIConnectionError | RateLimitError
| TypeError | TypeError_binding | RetryError.

(** What [client.responses.create] gives back: [None] when it raises
    (caught in the body); otherwise the stripped [output_text] and the
    [refusal] of the first output item, if that item is a refusal. *)
Record api_response := mkApiResponse {
  output_text : string;
  first_refusal : option string
}.

(** The answer of the LLM service to one request. *)
Definition oracle := list message -> option api_response.

(** The result of a Python call. *)
Inductive call_result :=
| Ret (o : option string)
| Exc (e : exc).

(** CPython's keyword-argument binding for a [def] whose parameters are
    [params] (name, has a default) and which has [**kwargs] when
    [has_varkw]: an unknown keyword without [**kwargs] and a parameter
    without default left unbound are both a TypeError raised before the
    body runs. Returns the bound parameters and the [**kwargs] dict. *)
Definition bind_kwargs (params : list (string * bool)) (has_varkw : bool)
    (kws : list (string * pyval)) : option (list (string * pyval) * list (string * pyval)) :=
  let is_param k := existsb (fun p => String.eqb (fst p) k) params in
  let supplied p := existsb (fun kw => String.eqb (fst kw) p) kws in
  if forallb (fun kw => is_param (fst kw) || has_varkw) kws
     && forallb (fun p => snd p || supplied (fst p)) params
  then Some (filter (fun kw => is_param (fst kw)) kws,
             filter (fun kw => negb (is_param (fst kw))) kws)
  else None.

(** [def call_openai_api(prompt, model=..., max_tokens=4096, temperature=0.3, **kwargs)]. *)
Definition call_openai_api_params : list (string * bool) :=
  [("prompt", false); ("model", true); ("max_tokens", true); ("temperature", true)].

Fixpoint lookup_kw (k : string) (kws : list (string * pyval)) : option pyval :=
  match kws with
  | [] => None
  | (k', v) :: rest => if String.eqb k k' then Some v else lookup_kw k rest
  end.

(** The body of [call_openai_api] once its arguments are bound; every
    exception of the API call is caught and turned into [None]. *)
Definition call_openai_api_body (client_ok : bool) (llm : oracle) (bound : list (string * pyval)) : option string :=
  if negb client_ok then None else
  let api_input :=
    match lookup_kw "prompt" bound with
    | Some (VStr p) => Some [("user", p)]
    | Some (VMessages m) => Some m
    | _ => None
    end in
  match api_input with
  | None => None
  | Some input =>
      match llm input with
      | None => None
      | Some resp =>
          if Py.str_truthy (output_text resp) then Some (output_text resp)
          else match first_refusal resp with
               | Some r => Some ("[REFUSAL: " ++ r ++ "]")
               | None => None
               end
      end
  end.

(** tenacity's [retry_if_exception_type(RETRYABLE_EXCEPTIONS)]: the tuple
    ends in a lambda, so [isinstance] raises TypeError for an exception
    that is none of the three classes before it ([None] here). *)
Definition retry_predicate (e : exc) : option bool :=
  match e with
  | APITimeoutError | APIConnectionError | RateLimitError => Some true
  | _ => None
  end.

(** [@retry(stop=stop_after_attempt(3), ...)] around one attempt whose
    outcome does not change between attempts. *)
Fixpoint with_retry (attempts_left : nat) (attempt : call_result) : call_result :=
  match attempt with
  | Ret o => Ret o
  | Exc e =>
      match retry_predicate e with
      | None => Exc TypeError
      | Some false => Exc e
      | Some true =>
          match attempts_left with
          | O => Exc RetryError
          | S n => with_retry n attempt
          end
      end
  end.

(** [call_openai_api] called with the keyword arguments [kws]. *)
Definition call_openai_api (client_ok : bool) (llm : oracle) (kws : list (string * pyval)) : call_result :=
  with_retry 2
    (match bind_kwargs call_openai_api_params true kws with
     | None => Exc TypeError_binding
     | Some (bound, _) => Ret (call_openai_api_body client_ok llm bound)
     end).

End LLM.

(* ------------------------------------------------------------------ *)
(** * Enrichment dispatchers (src/processing, src/run_translator.py,
      src/run_analyzer.py) *)
(* ------------------------------------------------------------------ *)
Module Enrich.
Import LLM.

(** A [reviews] row as the dispatchers read and write it. *)
Record review := mkReview {
  r_id : Z;                                (* recommendationid *)
  r_app_id : Z;
  r_original_language : string;
  r_original_review_text : option string;  (* nullable column *)
  r_english_translation : option string;
  r_translation_model : option string;
  r_translation_status : string;
  r_analysis_status : string
}.


(** The structured fields of [ReviewAnalysisResult] (lists rendered as text). *)
Record analysis_result := mkAnalysisResult {
  analyzed_sentiment : option string;
  positive_themes : option string;
  negative_themes : option string;
  feature_requests : option string;
  bug_reports : option string
}.

(** A Python dict with string keys, in insertion order. *)
Definition dict := list (string * string).

Definition dict_get (k : string) (d : dict) : option string :=
  match find (fun kv => String.eqb (fst kv) k) d with
  | Some kv => Some (snd kv)
  | None => None
  end.

Definition nl : string := String (ascii_of_nat 10) EmptyString.

(** [str(e)]. The two TypeErrors carry CPython's messages; the others
    never leave [call_openai_api] (its body catches every exception of the
    API call), and are rendered by their class name. *)
Definition exc_str (e : exc) : string :=
  match e with
  | APITimeoutError => "APITimeoutError" | APIConnectionError => "APIConnectionError"
  | RateLimitError => "RateLimitError"
  | TypeError => "isinstance() arg 2 must be a type, a tuple of types, or a union"
  | TypeError_binding => "call_openai_api() missing 1 required positional argument: 'prompt'"
  | RetryError => "RetryError"
  end.

Section Dispatch.
(** [constants.LANGUAGE_MAP], the cache file contents per app, the default
    model, whether the OpenAI client was initialised, the LLM service, and
    [json.loads] followed by the pydantic validation of a response. *)
Variable LANGUAGE_MAP : string -> option string.
Variable load_cache : Z -> gmap string string.
Variable OPENAI_MODEL : string.
Variable client_ok : bool.
Variable llm : oracle.
Variable parse_analysis : string -> option analysis_result.

(* --- Translator.translate_review_text --- *)





(* --- run_translator._process_single_translation --- *)








(* --- ReviewAnalyzer.analyze_review_text --- *)

Definition analysis_system_prompt : string :=
  "You are an expert text analyst. Analyze the following Steam review text.".

Definition opt_field (o : option string) : string :=
  match o with Some s => s | None => "None" end.

(** [validated_data.model_dump()] with ['llm_analysis_model'] added. *)
Definition analysis_dump (a : analysis_result) (model : string) : dict :=
  [("analyzed_sentiment", opt_field (analyzed_sentiment a));
   ("positive_themes", opt_field (positive_themes a));
   ("negative_themes", opt_field (negative_themes a));
   ("feature_requests", opt_field (feature_requests a));
   ("bug_reports", opt_field (bug_reports a));
   ("llm_analysis_model", model)].

Definition analyze_review_text (model : string) (review_text : string) : dict :=
  if Py.strip_is_empty review_text then [("error", "Input text is empty.")] else
  let prompt := [("system", analysis_system_prompt);
                 ("user", "Analyze this review text and respond with JSON:" ++ nl ++ nl ++ review_text)] in
  match call_openai_api client_ok llm
          [("messages", VMessages prompt); ("model", VStr model);
           ("temperature", VNum 0); ("max_tokens", VNum 1000)] with
  | Exc e => [("error", "Exception during analysis: " ++ exc_str e)]
  | Ret (Some t) =>
      if Py.str_truthy t then
        if Py.startswith t "[REFUSAL" then
          [("error", "Model refused analysis request"); ("refusal_message", t)]
        else match parse_analysis t with
             | Some a => analysis_dump a model
             | None => [("error", "Failed to parse/validate analysis JSON from AI."); ("raw_response", t)]
             end
      else [("error", "Analysis generation failed (API returned None or empty).")]
  | Ret None => [("error", "Analysis generation failed (API returned None or empty).")]
  end.

(* --- run_analyzer._process_single_analysis --- *)

Definition opt_str_truthy (o : option string) : bool :=
  match o with Some s => Py.str_truthy s | None => false end.

Definition text_to_analyze (rv : review) : option string :=
  if String.eqb (r_translation_status rv) "translated" && opt_str_truthy (r_english_translation rv)
  then r_english_translation rv
  else if String.eqb (r_original_language rv) "english" then r_original_review_text rv
  else None.

Definition analysis_status_of (d : dict) : string :=
  match dict_get "error" d with
  | None => "analyzed"
  | Some err => if String.eqb err "Model refused analysis request" then "skipped" else "failed"
  end.

(** [crud.update_review_analysis], on the status column. *)
Definition update_review_analysis (db : gmap Z review) (recommendation_id : Z) (status : string) : gmap Z review :=
  match db !! recommendation_id with
  | Some r =>
      <[recommendation_id := mkReview (r_id r) (r_app_id r) (r_original_language r)
                              (r_original_review_text r) (r_english_translation r)
                              (r_translation_model r) (r_translation_status r) status]> db
  | None => db
  end.

Definition process_single_analysis (model : string) (db : gmap Z review) (rv : review)
  : gmap Z review * (Z * string * option string) :=
  match text_to_analyze rv with
  | Some t =>
      if Py.strip_is_empty t then
        (update_review_analysis db (r_id rv) "failed", (r_id rv, "failed", Some "No text available"))
      else
        let d := analyze_review_text model t in
        let status := analysis_status_of d in
        (update_review_analysis db (r_id rv) status, (r_id rv, status, dict_get "error" d))
  | None =>
      (update_review_analysis db (r_id rv) "failed", (r_id rv, "failed", Some "No text available"))
  end.

Fixpoint submit_analyses (model : string) (db : gmap Z review) (batch : list review)
  : gmap Z review * list (Z * string * option string) :=
  match batch with
  | [] => (db, [])
  | rv :: rest =>
      let '(db', res) := process_single_analysis model db rv in
      let '(db'', results) := submit_analyses model db' rest in
      (db'', res :: results)
  end.

End Dispatch.
End Enrich.

(* ------------------------------------------------------------------ *)
(** * Work queues of the enrichment runs (src/database/crud.py,
      src/run_translator.py, src/run_analyzer.py) *)
(* ------------------------------------------------------------------ *)
Module Queue.
Import LLM Enrich.


(** The WHERE clause of [crud.get_reviews_needing_analysis]. *)
Definition needs_analysis (r : review) : bool :=
  String.eqb (r_analysis_status r) "pending"
  && (String.eqb (r_translation_status r) "translated"
      || String.eqb (r_translation_status r) "not_required").


Definition get_reviews_needing_analysis (db : gmap Z review) (limit : nat) : list review :=
  firstn limit (List.filter needs_analysis (map snd (map_to_list db))).

(** The ids of the rows a WHERE clause [needs] selects. *)
Definition pending_ids (needs : review -> bool) (db : gmap Z review) : gset Z :=
  dom (filter (fun kv : Z * review => needs kv.2 = true) db).

(** The primary key: each row is stored under its [recommendationid]. *)
Definition well_keyed (db : gmap Z review) : Prop :=
  map_Forall (fun k r => r_id r = k) db.

Definition ANALYSIS_BATCH_SIZE : nat := 20.

Section Loops.
Variable LANGUAGE_MAP : string -> option string.
Variable load_cache : Z -> gmap string string.
Variable OPENAI_MODEL : string.
Variable client_ok : bool.
Variable llm : oracle.
Variable parse_analysis : string -> option analysis_result.



(** The [while True] loop of [process_analysis], with the one
    [ReviewAnalyzer()] of the run (model [OPENAI_MODEL]). *)
Fixpoint process_analysis (fuel : nat) (db : gmap Z review) : option (gmap Z review) :=
  match fuel with
  | O => None
  | S fuel' =>
      let reviews_to_analyze := get_reviews_needing_analysis db ANALYSIS_BATCH_SIZE in
      match reviews_to_analyze with
      | [] => Some db
      | _ =>
          let '(db', _) := submit_analyses client_ok llm parse_analysis OPENAI_MODEL db reviews_to_analyze in
          if Nat.ltb (length reviews_to_analyze) ANALYSIS_BATCH_SIZE then Some db'
          else process_analysis fuel' db'
      end
  end.

End Loops.
End Queue.

(* ------------------------------------------------------------------ *)
(** * Report summaries (src/reporting/excel_generator.py) *)
(* ------------------------------------------------------------------ *)
Module Report.
Import Enrich.

(** One entry of [distinct_languages] with what the loop computes from
    [reviews_df]: whether [lang_df] has rows, and [lang_summary_input_text]. *)
Record lang_group := mkLangGroup {
  lg_code : string;
  lg_has_rows : bool;
  lg_input_text : string
}.

(** The value [asyncio.gather] over [tasks] with [return_exceptions=True] puts in
    [results] for one coroutine: its return value or the exception. *)
Inductive task_result :=
| TaskReturned (d : dict)
| TaskRaised (msg : string).

(** [language_data_map[lang_code]]: the task index (when set) and the
    [summary_result] (when set). *)
Record lang_entry := mkLangEntry {
  le_code : string;
  le_task_index : option Z;
  le_summary_result : option dict
}.

Section Gather.
Variable LANGUAGE_MAP : string -> option string.

Definition lang_name (code : string) : string :=
  match LANGUAGE_MAP code with Some n => n | None => code end.

(** The [context_description] of a language's summary task. *)
Definition lang_context (code : string) : string :=
  "language " ++ lang_name code ++ " (" ++ code ++ ")".

(** What the JSON extraction and pydantic validation of a summary answer
    give: the dumped model, one of the caught parse or validation errors,
    or another exception (caught by the outer [except Exception]). *)
Inductive parse_outcome :=
| Parsed (d : dict)
| ParseError
| OtherError.

(** [_generate_single_summary] for the answer [resp] of [acall_openai_api]
    (which catches the exceptions of the API call and returns [None]). *)
Definition generate_single_summary (parse_summary : string -> parse_outcome)
    (input_text context_description : string) (resp : option string) : dict :=
  if Py.strip_is_empty input_text then
    [("error", "No valid text input for summary (" ++ context_description ++ ").")]
  else
    let failed := [("error", "LLM summary call failed (" ++ context_description ++ ") (returned None/empty).")] in
    match resp with
    | Some t =>
        if Py.str_truthy t && negb (Py.startswith t "[REFUSAL") then
          match parse_summary t with
          | Parsed d => d
          | ParseError => [("error", "Failed to parse/validate summary JSON (" ++ context_description ++ ")");
                           ("raw_response", t)]
          | OtherError => [("error", "Exception during LLM call task for " ++ context_description ++ ".")]
          end
        else if Py.str_truthy t && Py.startswith t "[REFUSAL" then
          [("error", "Summary request refused (" ++ context_description ++ ")"); ("refusal_message", t)]
        else failed
    | None => failed
    end.

(** The [for lang_code in distinct_languages] loop: the entries of
    [language_data_map] and the [tasks] list (each task named by its
    context description). *)
Fixpoint prepare_tasks (groups : list lang_group) (tasks : list string)
  : list lang_entry * list string :=
  match groups with
  | [] => ([], tasks)
  | g :: rest =>
      if negb (lg_has_rows g) then
        let '(es, ts) := prepare_tasks rest tasks in
        (mkLangEntry (lg_code g) None (Some [("error", "No reviews for this language.")]) :: es, ts)
      else
        (* language_data_map[lang_code]['task_index'] = len(tasks) - 1 *)
        let task_index := Z.of_nat (length tasks) - 1 in
        if negb (Py.strip_is_empty (lg_input_text g)) then
          let '(es, ts) := prepare_tasks rest (tasks ++ [lang_context (lg_code g)])%list in
          (mkLangEntry (lg_code g) (Some task_index) None :: es, ts)
        else
          let '(es, ts) := prepare_tasks rest tasks in
          (mkLangEntry (lg_code g) (Some task_index)
             (Some [("error", "No valid text input for summary (" ++ lang_name (lg_code g) ++ ").")]) :: es, ts)
  end.

(** Reading one task's result back into [summary_result]; [None] is the
    IndexError of [results[task_index]]. *)
Definition fill_entry (results : list task_result) (e : lang_entry) : option lang_entry :=
  match le_task_index e with
  | None => Some e
  | Some i =>
      match Py.index results i with
      | None => None
      | Some (TaskRaised msg) =>
          Some (mkLangEntry (le_code e) (Some i) (Some [("error", "Task execution failed: " ++ msg)]))
      | Some (TaskReturned d) => Some (mkLangEntry (le_code e) (Some i) (Some d))
      end
  end.

Fixpoint fill_entries (results : list task_result) (es : list lang_entry) : option (list lang_entry) :=
  match es with
  | [] => Some []
  | e :: rest =>
      match fill_entry results e, fill_entries results rest with
      | Some e', Some rest' => Some (e' :: rest')
      | _, _ => None
      end
  end.

(** Steps 2 and 3 of [generate_summary_report]: the per-language
    [summary_result]s and [overall_summary_result] ([None]: an exception
    escapes). [run_task] is the outcome of each coroutine, by context. *)
Definition summarize (groups : list lang_group) (overall_summary_input_text : string)
    (run_task : string -> task_result) : option (list lang_entry * dict) :=
  let '(entries, tasks0) := prepare_tasks groups [] in
  let has_overall := negb (Py.strip_is_empty overall_summary_input_text) in
  let tasks := if has_overall then (tasks0 ++ ["overall"])%list else tasks0 in
  let overall_task_index := if has_overall then Z.of_nat (length tasks) - 1 else -1 in
  let overall_default := [("error", "No valid text input for overall summary.")] in
  match tasks with
  | [] => Some (entries, overall_default)
  | _ =>
      let results := map run_task tasks in
      match fill_entries results entries with
      | None => None
      | Some entries' =>
          if Z.eqb overall_task_index (-1) then Some (entries', overall_default)
          else match Py.index results overall_task_index with
               | None => None
               | Some (TaskRaised msg) => Some (entries', [("error", "Overall task execution failed: " ++ msg)])
               | Some (TaskReturned d) => Some (entries', d)
               end
      end
  end.

End Gather.
End Report.

(* ================================================================== *)
(** * Properties *)
(* ================================================================== *)

(* ------------------------------------------------------------------ *)
(** ** The bulk persister *)
(* ------------------------------------------------------------------ *)
Module PersistFacts.
Import Persist.

Lemma insert_ignore_keeps (rows : list row) (s : gmap Z row) (k : Z) (v : row) :
  s !! k = Some v -> foldl insert_ignore s rows !! k = Some v.
Proof.
  revert s. induction rows as [|r rows IH]; intros s Hk; simpl; [exact Hk|].
  apply IH. unfold insert_ignore.
  destruct (s !! recommendationid r) eqn:E; [exact Hk|].
  rewrite lookup_insert_ne; [exact Hk|]. intros <-. congruence.
Qed.

Lemma insert_ignore_covers (rows : list row) (s : gmap Z row) (r : row) :
  In r rows -> is_Some (foldl insert_ignore s rows !! recommendationid r).
Proof.
  revert s. induction rows as [|r' rows IH]; intros s Hin; simpl in *; [contradiction|].
  destruct Hin as [->|Hin]; [|apply IH; exact Hin].
  unfold insert_ignore. destruct (s !! recommendationid r) eqn:E.
  - eexists. apply insert_ignore_keeps. exact E.
  - eexists. apply insert_ignore_keeps. apply lookup_insert_eq.
Qed.

Lemma insert_ignore_stored (rows : list row) (s : gmap Z row) :
  (forall r, In r rows -> is_Some (s !! recommendationid r)) -> foldl insert_ignore s rows = s.
Proof.
  revert s. induction rows as [|r rows IH]; intros s Hall; simpl; [reflexivity|].
  assert (E : insert_ignore s r = s).
  { unfold insert_ignore. destruct (Hall r (or_introl eq_refl)) as [v Hv]. rewrite Hv. reflexivity. }
  rewrite E. apply IH. intros r' Hr'. apply Hall. right. exact Hr'.
Qed.

Lemma add_reviews_bulk_returns (s : gmap Z row) (rows : list row) :
  fst (add_reviews_bulk s rows) = Returned.
Proof.
  unfold add_reviews_bulk. destruct rows; [reflexivity|].
  destruct (insert_do_nothing s (r :: rows)); reflexivity.
Qed.

Lemma add_reviews_bulk_keeps (s : gmap Z row) (rows : list row) (k : Z) (v : row) :
  s !! k = Some v -> snd (add_reviews_bulk s rows) !! k = Some v.
Proof.
  intros Hk. unfold add_reviews_bulk. destruct rows as [|r rows]; [exact Hk|].
  unfold insert_do_nothing. destruct (forallb row_valid (r :: rows)); [|exact Hk].
  apply (insert_ignore_keeps (r :: rows)). exact Hk.
Qed.

Lemma add_reviews_bulk_invalid (s : gmap Z row) (rows : list row) :
  forallb row_valid rows = false -> snd (add_reviews_bulk s rows) = s.
Proof.
  intros Hv. unfold add_reviews_bulk. destruct rows as [|r rows]; [reflexivity|].
  unfold insert_do_nothing. rewrite Hv. reflexivity.
Qed.

Lemma add_reviews_bulk_all_stored (s : gmap Z row) (rows : list row) :
  (forall r, In r rows -> is_Some (s !! recommendationid r)) -> snd (add_reviews_bulk s rows) = s.
Proof.
  intros Hall. unfold add_reviews_bulk. destruct rows as [|r rows]; [reflexivity|].
  unfold insert_do_nothing. rewrite (insert_ignore_stored (r :: rows) s Hall).
  destruct (forallb row_valid (r :: rows)); reflexivity.
Qed.

Lemma add_reviews_bulk_covers (s : gmap Z row) (rows : list row) :
  forallb row_valid rows = true ->
  forall r, In r rows -> is_Some (snd (add_reviews_bulk s rows) !! recommendationid r).
Proof.
  intros Hv r Hin. unfold add_reviews_bulk. destruct rows as [|r0 rows]; [contradiction|].
  unfold insert_do_nothing. rewrite Hv. apply (insert_ignore_covers (r0 :: rows)). exact Hin.
Qed.

(** C4: the bulk persister is idempotent: a second call with the same
    batch leaves the store of the first call unchanged; a row whose
    natural id is already stored is never updated; a batch whose ids are
    all stored is a no-op; [add_video] of a stored id changes nothing. *)
Theorem persister_idempotent :
  (forall (s : gmap Z row) (rows : list row),
     snd (add_reviews_bulk (snd (add_reviews_bulk s rows)) rows) = snd (add_reviews_bulk s rows))
  /\ (forall (s : gmap Z row) (rows : list row) (k : Z) (v : row),
        s !! k = Some v -> snd (add_reviews_bulk s rows) !! k = Some v)
  /\ (forall (s : gmap Z row) (rows : list row),
        (forall r, In r rows -> is_Some (s !! recommendationid r)) -> snd (add_reviews_bulk s rows) = s)
  /\ (forall (vs : gmap string video) (video_id : string) (v : video) (db_ok : bool),
        is_Some (vs !! video_id) -> snd (add_video vs video_id v db_ok) = vs).
Proof.
  split; [|split; [|split]].
  - intros s rows. destruct (forallb row_valid rows) eqn:Hv.
    + apply add_reviews_bulk_all_stored. apply add_reviews_bulk_covers. exact Hv.
    + rewrite (add_reviews_bulk_invalid s rows Hv). exact (add_reviews_bulk_invalid s rows Hv).
  - exact add_reviews_bulk_keeps.
  - exact add_reviews_bulk_all_stored.
  - intros vs video_id v db_ok [w Hw]. unfold add_video.
    destruct db_ok; simpl; [rewrite Hw|]; reflexivity.
Qed.

Lemma persister_idempotent_witness :
  let r := mkRow 5 7 "english" "fun" (Some "fun") "not_required" "pending" 1200 (Some true) in
  is_Some ((<[5 := r]> (∅ : gmap Z row)) !! recommendationid r) /\
  snd (add_reviews_bulk (<[5 := r]> ∅) [r]) = <[5 := r]> ∅.
Proof.
  cbv zeta. split; [eexists; reflexivity|].
  apply (proj1 (proj2 (proj2 persister_idempotent))).
  intros r' [<-|[]]. eexists. reflexivity.
Defined.

End PersistFacts.

(* ------------------------------------------------------------------ *)
(** ** The Steam fetcher *)
(* ------------------------------------------------------------------ *)
Module SteamFacts.
Import Persist Steam.

Lemma scan_batch_spec (after : option Z) (batch : list review_data) (cur : Z) :
  let '(l, c, stop) := scan_batch after batch cur in
  (forall r, In r l -> cutoff_hit after (rd_timestamp_created r) = false /\ rd_timestamp_created r <= c)
  /\ cur <= c
  /\ (c = cur \/ (exists r, In r l /\ rd_timestamp_created r = c) \/ cutoff_hit after c = true)
  /\ l = Py.take_while (fun r => negb (cutoff_hit after (rd_timestamp_created r))) batch
  /\ stop = existsb (fun r => cutoff_hit after (rd_timestamp_created r)) batch.
Proof.
  revert cur. induction batch as [|rd rest IH]; intros cur; simpl.
  - refine (conj _ (conj _ (conj _ (conj _ _)))); [intros r []|lia|left; reflexivity|reflexivity|reflexivity].
  - destruct (cutoff_hit after (rd_timestamp_created rd)) eqn:Hhit; simpl.
    + refine (conj _ (conj _ (conj _ (conj _ _)))); [intros r []|lia| |reflexivity|reflexivity].
      destruct (Z.max_spec cur (rd_timestamp_created rd)) as [[_ ->]|[_ ->]];
        [right; right; exact Hhit|left; reflexivity].
    + specialize (IH (Z.max cur (rd_timestamp_created rd))).
      destruct (scan_batch after rest (Z.max cur (rd_timestamp_created rd))) as [[l c] stop].
      destruct IH as (Hl & Hc & Hmax & Htw & Hstop).
      refine (conj _ (conj _ (conj _ (conj _ _)))).
      * intros r [<-|Hr]; [split; [exact Hhit|lia]|apply Hl; exact Hr].
      * lia.
      * destruct Hmax as [Hm|[[r [Hr Hts]]|Hh]].
        -- destruct (Z.max_spec cur (rd_timestamp_created rd)) as [[_ E]|[_ E]]; rewrite E in Hm.
           ++ right; left. exists rd. split; [left; reflexivity|lia].
           ++ left. exact Hm.
        -- right; left. exists r. split; [right; exact Hr|exact Hts].
        -- right; right. exact Hh.
      * rewrite Htw. reflexivity.
      * exact Hstop.
Qed.

Lemma fetch_loop_spec (after : option Z) (pages : list response) (acc : list review_data)
    (latest : Z) (nc : option string) :
  0 <= latest ->
  let '(rs, hi, _) := fetch_loop after pages acc latest nc in
  exists new, rs = (acc ++ new)%list
  /\ (forall r, In r new -> cutoff_hit after (rd_timestamp_created r) = false /\ rd_timestamp_created r <= hi)
  /\ latest <= hi
  /\ (hi = latest \/ (exists r, In r new /\ rd_timestamp_created r = hi) \/ cutoff_hit after hi = true).
Proof.
  assert (Hnil : forall a0 l0, exists new, a0 = (a0 ++ new)%list
    /\ (forall r, In r new -> cutoff_hit after (rd_timestamp_created r) = false
                             /\ rd_timestamp_created r <= l0)
    /\ l0 <= l0
    /\ (l0 = l0 \/ (exists r, In r new /\ rd_timestamp_created r = l0)
        \/ cutoff_hit after l0 = true)).
  { intros a0 l0. exists []. rewrite app_nil_r.
    refine (conj eq_refl (conj _ (conj _ _))); [intros r []|lia|left; reflexivity]. }
  revert acc latest nc. induction pages as [|p ps IH]; intros acc latest nc Hl; simpl.
  - apply Hnil.
  - destruct p as [| | |success rs cursor]; try apply Hnil.
    destruct success; simpl; [|apply Hnil].
    destruct rs as [[|rd0 rest]|]; try apply Hnil.
    pose proof (scan_batch_spec after (rd0 :: rest) 0) as Hs.
    destruct (scan_batch after (rd0 :: rest) 0) as [[nb c] stop].
    destruct Hs as (Hnb & Hc0 & Hcmax & _ & _).
    assert (Hstep : exists new, (acc ++ nb)%list = (acc ++ new)%list
      /\ (forall r, In r new -> cutoff_hit after (rd_timestamp_created r) = false
                               /\ rd_timestamp_created r <= Z.max latest c)
      /\ latest <= Z.max latest c
      /\ (Z.max latest c = latest \/ (exists r, In r new /\ rd_timestamp_created r = Z.max latest c)
          \/ cutoff_hit after (Z.max latest c) = true)).
    { exists nb. refine (conj eq_refl (conj _ (conj _ _))).
      - intros r Hr. destruct (Hnb r Hr). split; [assumption|lia].
      - lia.
      - destruct (Z.max_spec latest c) as [[_ E]|[_ E]]; rewrite E; [|left; reflexivity].
        destruct Hcmax as [->|[Hex|Hh]]; [left; lia|right; left; exact Hex|right; right; exact Hh]. }
    destruct stop; [exact Hstep|].
    destruct (negb (cursor_truthy cursor)); [exact Hstep|].
    specialize (IH (acc ++ nb)%list (Z.max latest c) cursor ltac:(lia)).
    destruct (fetch_loop after ps (acc ++ nb) (Z.max latest c) cursor) as [[rs' hi] nc'].
    destruct IH as (new' & Hrs & Hnew' & Hle & Hhi).
    exists (nb ++ new')%list. refine (conj _ (conj _ (conj _ _))).
    + rewrite Hrs. rewrite app_assoc. reflexivity.
    + intros r Hr. apply in_app_or in Hr as [Hr|Hr].
      * destruct (Hnb r Hr). split; [assumption|lia].
      * apply Hnew'. exact Hr.
    + lia.
    + destruct Hhi as [E|[[r [Hr Hts]]|Hh]].
      * destruct (Z.max_spec latest c) as [[_ E2]|[_ E2]]; rewrite E2 in E.
        -- destruct Hcmax as [->|[[r [Hr Hts]]|Hh]].
           ++ left. lia.
           ++ right; left. exists r. split; [apply in_or_app; left; exact Hr|lia].
           ++ right; right. rewrite E. exact Hh.
        -- left. exact E.
      * right; left. exists r. split; [apply in_or_app; right; exact Hr|exact Hts].
      * right; right. exact Hh.
Qed.

Lemma fetch_cycle_mark (s : gmap Z row) (appid last_fetch : Z) (pages : list response) :
  0 <= last_fetch ->
  let handed := fst (fst (fetch_reviews (Some last_fetch) pages)) in
  let '(_, m) := fetch_cycle s appid last_fetch pages in
  last_fetch <= m
  /\ (m = last_fetch \/ exists r, In r handed /\ rd_timestamp_created r = m)
  /\ (forall r, In r handed -> rd_timestamp_created r <= m).
Proof.
  intros Hl. unfold fetch_cycle, fetch_reviews.
  pose proof (fetch_loop_spec (Some last_fetch) pages [] 0 None ltac:(lia)) as H.
  destruct (fetch_loop (Some last_fetch) pages [] 0 None) as [[rs hi] nc]. cbn [fst snd].
  destruct H as (new & Hrs & Hnew & Hle & Hhi). simpl in Hrs. subst rs.
  destruct new as [|r0 new0] eqn:En.
  - refine (conj _ (conj _ _)); [lia|left; reflexivity|intros r []].
  - rewrite <- En in *.
    destruct (Z.ltb_spec last_fetch hi).
    + refine (conj _ (conj _ _)); [lia| |intros r Hr; apply Hnew; exact Hr].
      destruct Hhi as [->|[Hex|Hh]]; [lia|right; exact Hex|].
      unfold cutoff_hit in Hh. simpl in Hh.
      destruct (Z.eqb_spec last_fetch 0); simpl in Hh; [discriminate|].
      apply Z.leb_le in Hh. lia.
    + refine (conj _ (conj _ _)); [lia|left; reflexivity|].
      intros r Hr. destruct (Hnew r Hr). lia.
Qed.

Lemma run_cycles_sorted (s : gmap Z row) (appid last_fetch : Z) (runs : list (list response)) :
  0 <= last_fetch -> Sorted Z.le (last_fetch :: run_cycles s appid last_fetch runs).
Proof.
  revert s last_fetch. induction runs as [|pages rest IH]; intros s last_fetch Hl; simpl.
  - constructor; constructor.
  - pose proof (fetch_cycle_mark s appid last_fetch pages Hl) as Hm. simpl in Hm.
    destruct (fetch_cycle s appid last_fetch pages) as [s' m].
    destruct Hm as (Hle & _ & _).
    constructor; [apply IH; lia|constructor; exact Hle].
Qed.

Lemma fetch_reviews_zero (pages : list response) :
  fetch_reviews (Some 0) pages = fetch_reviews None pages.
Proof.
  assert (Hs : forall batch cur, scan_batch (Some 0) batch cur = scan_batch None batch cur).
  { induction batch as [|rd rest IH]; intros cur; simpl; [reflexivity|].
    unfold cutoff_hit. simpl. rewrite IH. reflexivity. }
  assert (Hl : forall ps acc latest nc,
    fetch_loop (Some 0) ps acc latest nc = fetch_loop None ps acc latest nc).
  { induction ps as [|p ps IH]; intros acc latest nc; simpl; [reflexivity|].
    destruct p as [| | |success rs cursor]; try reflexivity.
    destruct success; [|reflexivity]. destruct rs as [[|rd0 rest]|]; try reflexivity.
    rewrite Hs. destruct (scan_batch None (rd0 :: rest) 0) as [[nb c] stop].
    destruct stop; [reflexivity|]. destruct (negb (cursor_truthy cursor)); [reflexivity|].
    apply IH. }
  apply Hl.
Qed.

Lemma handed_above_cutoff (T : Z) (pages : list response) (r : review_data) :
  T <> 0 -> In r (fst (fst (fetch_reviews (Some T) pages))) -> T < rd_timestamp_created r.
Proof.
  intros HT Hin. unfold fetch_reviews in Hin.
  pose proof (fetch_loop_spec (Some T) pages [] 0 None ltac:(lia)) as H.
  destruct (fetch_loop (Some T) pages [] 0 None) as [[rs hi] nc]. simpl in Hin.
  destruct H as (new & -> & Hnew & _ & _). simpl in Hin.
  destruct (Hnew r Hin) as [Hh _]. unfold cutoff_hit in Hh. simpl in Hh.
  destruct (Z.eqb_spec T 0); [contradiction|]. simpl in Hh.
  apply Z.leb_gt in Hh. exact Hh.
Qed.

Lemma fetch_loop_stops (T : Z) (batch : list review_data) (cursor : option string)
    (ps ps' : list response) (acc : list review_data) (latest : Z) (nc : option string) :
  existsb (fun r => cutoff_hit (Some T) (rd_timestamp_created r)) batch = true ->
  fetch_loop (Some T) (Resp_json true (Some batch) cursor :: ps) acc latest nc
    = fetch_loop (Some T) (Resp_json true (Some batch) cursor :: ps') acc latest nc
  /\ fst (fst (fetch_loop (Some T) (Resp_json true (Some batch) cursor :: ps) acc latest nc))
    = (acc ++ Py.take_while (fun r => negb (cutoff_hit (Some T) (rd_timestamp_created r))) batch)%list.
Proof.
  intros Hex. destruct batch as [|rd0 rest]; [discriminate|].
  cbn [fetch_loop negb].
  pose proof (scan_batch_spec (Some T) (rd0 :: rest) 0) as Hs.
  destruct (scan_batch (Some T) (rd0 :: rest) 0) as [[l c] stop].
  destruct Hs as (_ & _ & _ & Htw & Hstop). rewrite Hex in Hstop. subst stop.
  split; [reflexivity|]. simpl. rewrite Htw. reflexivity.
Qed.

(** C2 (amended): with a nonzero cutoff [T] (the [last_fetched_timestamp]
    of the app), every review [fetch_reviews] hands on has a timestamp
    above [T]; a page holding a review at or below [T] is the last page
    requested and contributes exactly its reviews before the first such
    one; for an app at position 1000 whose newest-first page has
    timestamps 1200, 1100, 1000, 900, only the reviews at 1200 and 1100 are
    stored, whatever later pages would have held, and the new position is
    1200. At a cutoff of 0 ([if after_timestamp and ...] is false) nothing
    is filtered: [fetch_reviews] behaves as without a cutoff. *)
Theorem cutoff_filtering :
  (forall (T : Z) (pages : list response) (r : review_data),
     T <> 0 -> In r (fst (fst (fetch_reviews (Some T) pages))) -> T < rd_timestamp_created r)
  /\ (forall (T : Z) (batch : list review_data) (cursor : option string)
        (ps ps' : list response) (acc : list review_data) (latest : Z) (nc : option string),
        existsb (fun r => cutoff_hit (Some T) (rd_timestamp_created r)) batch = true ->
        fetch_loop (Some T) (Resp_json true (Some batch) cursor :: ps) acc latest nc
          = fetch_loop (Some T) (Resp_json true (Some batch) cursor :: ps') acc latest nc
        /\ fst (fst (fetch_loop (Some T) (Resp_json true (Some batch) cursor :: ps) acc latest nc))
          = (acc ++ Py.take_while (fun r => negb (cutoff_hit (Some T) (rd_timestamp_created r))) batch)%list)
  /\ (forall rest : list response,
        fetch_cycle ∅ 7 1000
          (Resp_json true
             (Some [mkReviewData 1 "english" "a" 1200 (Some true);
                    mkReviewData 2 "schinese" "b" 1100 (Some false);
                    mkReviewData 3 "english" "c" 1000 (Some true);
                    mkReviewData 4 "english" "d" 900 (Some true)])
             (Some "next") :: rest)
        = (<[2 := insert_dict 7 (mkReviewData 2 "schinese" "b" 1100 (Some false))]>
             (<[1 := insert_dict 7 (mkReviewData 1 "english" "a" 1200 (Some true))]> ∅), 1200))
  /\ (forall pages : list response, fetch_reviews (Some 0) pages = fetch_reviews None pages).
Proof.
  refine (conj _ (conj _ (conj _ _))).
  - exact handed_above_cutoff.
  - exact fetch_loop_stops.
  - intros rest. vm_compute. reflexivity.
  - exact fetch_reviews_zero.
Qed.

(** C2 counterexample: at position 0 a review whose [timestamp_created]
    is missing ([review_data.get('timestamp_created', 0)]) is handed on
    and stored, although its timestamp is not above the cutoff 0. *)
Lemma cutoff_filtering_counterexample :
  let rd := mkReviewData 5 "english" "no timestamp" 0 (Some true) in
  fst (fst (fetch_reviews (Some 0) [Resp_json true (Some [rd]) None])) = [rd]
  /\ fetch_cycle ∅ 7 0 [Resp_json true (Some [rd]) None] = (<[5 := insert_dict 7 rd]> ∅, 0)
  /\ rd_timestamp_created rd <= 0.
Proof.
  vm_compute. split; [reflexivity|split; [reflexivity|discriminate]].
Qed.

Lemma fetch_cycle_store_mark (s : gmap Z row) (appid last_fetch : Z) (pages : list response) :
  fetch_cycle s appid last_fetch pages
  = let '(rs, hi, _) := fetch_reviews (Some last_fetch) pages in
    match rs with
    | [] => (s, last_fetch)
    | _ => (snd (add_reviews_bulk s (map (insert_dict appid) rs)), Z.max last_fetch hi)
    end.
Proof.
  unfold fetch_cycle. destruct (fetch_reviews (Some last_fetch) pages) as [[rs hi] nc].
  destruct rs as [|r0 rs]; [reflexivity|].
  destruct (Z.ltb_spec last_fetch hi); f_equal; lia.
Qed.

(** C3 (amended): [add_reviews_bulk] returns normally on every input: an
    id already stored is left as it is, and a batch with a row violating
    a NOT NULL constraint is rolled back as a whole and only logged.
    [run_fetcher] therefore goes on to advance [last_fetched_timestamp]
    exactly as if the batch had been stored. *)
Theorem bulk_persister_swallows :
  (forall (s : gmap Z row) (rows : list row), fst (add_reviews_bulk s rows) = Returned)
  /\ (forall (s : gmap Z row) (rows : list row) (k : Z) (v : row),
        s !! k = Some v -> snd (add_reviews_bulk s rows) !! k = Some v)
  /\ (forall (s : gmap Z row) (rows : list row),
        forallb row_valid rows = false -> snd (add_reviews_bulk s rows) = s)
  /\ (forall (s : gmap Z row) (appid last_fetch : Z) (pages : list response),
        let '(rs, hi, _) := fetch_reviews (Some last_fetch) pages in
        forallb row_valid (map (insert_dict appid) rs) = false ->
        fetch_cycle s appid last_fetch pages = (s, Z.max last_fetch hi)).
Proof.
  refine (conj PersistFacts.add_reviews_bulk_returns (conj PersistFacts.add_reviews_bulk_keeps (conj PersistFacts.add_reviews_bulk_invalid _))).
  intros s appid last_fetch pages. rewrite fetch_cycle_store_mark.
  destruct (fetch_reviews (Some last_fetch) pages) as [[rs hi] nc]. intros Hv.
  destruct rs as [|r0 rs]; [discriminate|].
  rewrite (PersistFacts.add_reviews_bulk_invalid s _ Hv). reflexivity.
Qed.

(** C3 counterexample: a review whose [voted_up] is JSON null violates
    the NOT NULL column; the insert is rolled back, [add_reviews_bulk]
    returns normally, nothing is stored, and the app's position still
    moves from 1000 to 1200. *)
Lemma bulk_persister_counterexample :
  let rd := mkReviewData 1 "english" "a" 1200 None in
  fst (add_reviews_bulk ∅ [insert_dict 7 rd]) = Returned
  /\ snd (add_reviews_bulk ∅ [insert_dict 7 rd]) = ∅
  /\ fetch_cycle ∅ 7 1000 [Resp_json true (Some [rd]) None] = (∅, 1200).
Proof.
  vm_compute. refine (conj eq_refl (conj eq_refl eq_refl)).
Qed.

End SteamFacts.

(* ------------------------------------------------------------------ *)
(** ** The YouTube channel fetcher *)
(* ------------------------------------------------------------------ *)
Module YouTubeFacts.
Import Persist YouTube.

Definition ts_or0 (o : option Z) : Z := match o with Some t => t | None => 0 end.

Lemma process_single_video_added (vs : gmap string video) (vid ch : string) (env : video_env) (cutoff : Z) :
  let '(r, _) := process_single_video vs vid ch env cutoff in
  vr_new_video_added r = true ->
  exists up, get_video_metadata env vid = Some up
  /\ vr_upload_timestamp r = ts_or0 up /\ cutoff < ts_or0 up.
Proof.
  unfold process_single_video.
  destruct (vs !! vid) as [existing|]; [cbn; intros Hd; discriminate Hd|].
  destruct (get_video_metadata env vid) as [up|] eqn:Em; [|cbn; intros Hd; discriminate Hd].
  change (match up with Some t => t | None => 0 end) with (ts_or0 up).
  destruct (Z.leb_spec (ts_or0 up) cutoff) as [Hle|Hlt]; [cbn; intros Hd; discriminate Hd|].
  destruct (add_video vs vid (mkVideo ch up) (add_video_db_ok env vid)) as [[a|] vs'];
    (cbn; intros _; exists up; split; [first [exact Em|reflexivity]|split; [reflexivity|exact Hlt]]).
Qed.

Lemma process_single_video_store (vs : gmap string video) (vid ch : string) (env : video_env) (cutoff : Z) :
  let '(_, vs') := process_single_video vs vid ch env cutoff in
  (forall k v, vs !! k = Some v -> vs' !! k = Some v)
  /\ (forall k v, vs !! k = None -> vs' !! k = Some v -> cutoff < ts_or0 (v_upload_ts v)).
Proof.
  unfold process_single_video.
  destruct (vs !! vid) as [existing|] eqn:Evid;
    [split; [auto|intros k v Hn Hs; congruence]|].
  destruct (get_video_metadata env vid) as [up|];
    [|split; [auto|intros k v Hn Hs; congruence]].
  destruct (Z.leb_spec (match up with Some t => t | None => 0 end) cutoff) as [Hle|Hlt];
    [split; [auto|intros k v Hn Hs; congruence]|].
  unfold add_video. rewrite Evid.
  destruct (add_video_db_ok env vid); simpl;
    [|split; [auto|intros k v Hn Hs; congruence]].
  split.
  - intros k v Hk. rewrite lookup_insert_ne; [exact Hk|]. intros ->. congruence.
  - intros k v Hn Hs. destruct (decide (vid = k)) as [<-|Hne].
    + rewrite lookup_insert_eq in Hs. injection Hs as <-. exact Hlt.
    + rewrite lookup_insert_ne in Hs by exact Hne. congruence.
Qed.

Lemma run_videos_mark (vs : gmap string video) (ids : list string) (ch : string)
    (env : video_env) (cutoff h : Z) :
  let '(h', _) := run_videos vs ids ch env cutoff h in
  h <= h'
  /\ (h' = h \/ exists vid up, In vid ids /\ get_video_metadata env vid = Some up
                              /\ ts_or0 up = h' /\ cutoff < h').
Proof.
  revert vs h. induction ids as [|vid rest IH]; intros vs h; simpl.
  - split; [lia|left; reflexivity].
  - pose proof (process_single_video_added vs vid ch env cutoff) as Ha.
    destruct (process_single_video vs vid ch env cutoff) as [r vs1].
    set (h1 := if vr_new_video_added r then Z.max h (vr_upload_timestamp r) else h).
    assert (Hh1 : h <= h1 /\ (h1 = h \/ exists up, get_video_metadata env vid = Some up
                                          /\ ts_or0 up = h1 /\ cutoff < h1)).
    { subst h1. destruct (vr_new_video_added r); [|split; [lia|left; reflexivity]].
      destruct (Ha eq_refl) as (up & Hm & Hts & Hc).
      destruct (Z.max_spec h (vr_upload_timestamp r)) as [[_ E]|[_ E]]; rewrite E;
        [split; [lia|right; exists up; split; [exact Hm|split; lia]]|split; [lia|left; reflexivity]]. }
    specialize (IH vs1 h1).
    destruct (run_videos vs1 rest ch env cutoff h1) as [h' vs'].
    destruct IH as [Hle [E|(v & up & Hin & Hm & Hts & Hc)]]; split; try lia.
    + subst h'. destruct Hh1 as [_ [E|(up & Hm & Hts & Hc)]]; [left; exact E|].
      right. exists vid, up. split; [left; reflexivity|]. split; [exact Hm|]. split; [exact Hts|exact Hc].
    + right. exists v, up. split; [right; exact Hin|]. split; [exact Hm|]. split; [exact Hts|exact Hc].
Qed.

Lemma run_videos_store (vs : gmap string video) (ids : list string) (ch : string)
    (env : video_env) (cutoff h : Z) :
  let '(_, vs') := run_videos vs ids ch env cutoff h in
  (forall k v, vs !! k = Some v -> vs' !! k = Some v)
  /\ (forall k v, vs !! k = None -> vs' !! k = Some v -> cutoff < ts_or0 (v_upload_ts v)).
Proof.
  revert vs h. induction ids as [|vid rest IH]; intros vs h; simpl.
  - split; [auto|intros k v Hn Hs; congruence].
  - pose proof (process_single_video_store vs vid ch env cutoff) as Hs1.
    destruct (process_single_video vs vid ch env cutoff) as [r vs1].
    destruct Hs1 as [Hk1 Hn1].
    specialize (IH vs1 (if vr_new_video_added r then Z.max h (vr_upload_timestamp r) else h)).
    destruct (run_videos vs1 rest ch env cutoff _) as [h' vs'].
    destruct IH as [Hk2 Hn2]. split.
    + intros k v Hk. apply Hk2, Hk1, Hk.
    + intros k v Hn Hs. destruct (vs1 !! k) as [v1|] eqn:E1.
      * pose proof (Hk2 k v1 E1) as E2. rewrite Hs in E2. injection E2 as <-.
        exact (Hn1 k v Hn E1).
      * exact (Hn2 k v E1 Hs).
Qed.

Lemma process_channel_mark (vs : gmap string video) (ch : channel) (now max_age_days : Z)
    (resp : video_list) (env : video_env) :
  0 <= true_latest_known_video_ts_in_db vs (ch_id ch) ->
  let '(_, m) := process_channel vs ch now max_age_days resp env in
  m = ch_last_checked_timestamp ch \/ m = now
  \/ (true_latest_known_video_ts_in_db vs (ch_id ch) < m
      /\ exists ids vid up, resp = VL_ids ids /\ In vid ids /\ get_video_metadata env vid = Some up
         /\ ts_or0 up = m /\ effective_cutoff_ts vs (ch_id ch) now max_age_days < m).
Proof.
  intros H0. unfold process_channel.
  destruct (prelude_raises vs ch now max_age_days); [left; reflexivity|].
  destruct (handle_truthy (ch_handle ch)); simpl; [|right; left; reflexivity].
  destruct resp as [|[|vid0 rest]|]; try (right; left; reflexivity); [|left; reflexivity].
  pose proof (run_videos_mark vs (vid0 :: rest) (ch_id ch) env
                (effective_cutoff_ts vs (ch_id ch) now max_age_days) 0) as Hr.
  destruct (run_videos vs (vid0 :: rest) (ch_id ch) env _ 0) as [h vs'].
  destruct Hr as [Hle [E|(vid & up & Hin & Hm & Hts & Hc)]];
    destruct (Z.ltb_spec (true_latest_known_video_ts_in_db vs (ch_id ch)) h);
    try (left; reflexivity).
  - lia.
  - right; right. split; [assumption|].
    exists (vid0 :: rest), vid, up. repeat (split; [assumption || reflexivity|]). exact Hc.
Qed.

Lemma process_channel_store (vs : gmap string video) (ch : channel) (now max_age_days : Z)
    (resp : video_list) (env : video_env) (k : string) (v : video) :
  vs !! k = None ->
  fst (process_channel vs ch now max_age_days resp env) !! k = Some v ->
  effective_cutoff_ts vs (ch_id ch) now max_age_days < ts_or0 (v_upload_ts v).
Proof.
  intros Hn. unfold process_channel.
  destruct (prelude_raises vs ch now max_age_days); [cbn; congruence|].
  destruct (handle_truthy (ch_handle ch)); simpl; [|congruence].
  destruct resp as [|[|vid0 rest]|]; try (cbn; intros Hs; congruence).
  pose proof (run_videos_store vs (vid0 :: rest) (ch_id ch) env
                (effective_cutoff_ts vs (ch_id ch) now max_age_days) 0) as Hr.
  destruct (run_videos vs (vid0 :: rest) (ch_id ch) env _ 0) as [h vs'].
  destruct Hr as [_ Hr].
  destruct (Z.ltb (true_latest_known_video_ts_in_db vs (ch_id ch)) h);
    intros Hs; exact (Hr k v Hn Hs).
Qed.

Lemma process_single_video_added_stored (vs : gmap string video) (vid ch : string) (env : video_env)
    (cutoff : Z) :
  add_video_db_ok env vid = true ->
  let '(r, vs') := process_single_video vs vid ch env cutoff in
  vr_new_video_added r = true ->
  vs !! vid = None /\ exists v, vs' !! vid = Some v /\ v_channel_id v = ch
  /\ ts_or0 (v_upload_ts v) = vr_upload_timestamp r /\ cutoff < vr_upload_timestamp r.
Proof.
  intros Hok. unfold process_single_video.
  destruct (vs !! vid) as [existing|] eqn:Evid; [cbn; intros Hd; discriminate Hd|].
  destruct (get_video_metadata env vid) as [up|]; [|cbn; intros Hd; discriminate Hd].
  change (match up with Some t => t | None => 0 end) with (ts_or0 up).
  destruct (Z.leb_spec (ts_or0 up) cutoff) as [Hle|Hlt]; [cbn; intros Hd; discriminate Hd|].
  unfold add_video. rewrite Evid, Hok. cbn. intros _. split; [reflexivity|].
  exists (mkVideo ch up). rewrite lookup_insert_eq. auto.
Qed.

Lemma run_videos_mark_stored (vs : gmap string video) (ids : list string) (ch : string)
    (env : video_env) (cutoff h : Z) :
  (forall vid, add_video_db_ok env vid = true) ->
  let '(h', vs') := run_videos vs ids ch env cutoff h in
  h' = h \/ exists vid v, In vid ids /\ vs !! vid = None /\ vs' !! vid = Some v /\ v_channel_id v = ch
                        /\ ts_or0 (v_upload_ts v) = h' /\ cutoff < h'.
Proof.
  intros Hok. revert vs h. induction ids as [|vid rest IH]; intros vs h; simpl; [left; reflexivity|].
  pose proof (process_single_video_added_stored vs vid ch env cutoff (Hok vid)) as Ha.
  pose proof (process_single_video_store vs vid ch env cutoff) as Hs1.
  destruct (process_single_video vs vid ch env cutoff) as [r vs1].
  destruct Hs1 as [Hk1 _].
  set (h1 := if vr_new_video_added r then Z.max h (vr_upload_timestamp r) else h).
  pose proof (run_videos_store vs1 rest ch env cutoff h1) as Hs2.
  specialize (IH vs1 h1).
  destruct (run_videos vs1 rest ch env cutoff h1) as [h' vs'].
  destruct Hs2 as [Hk2 _].
  destruct IH as [E|(v & w & Hin & Hn & Hs & Hc & Hts & Hcut)].
  - subst h'. subst h1. destruct (vr_new_video_added r); [|left; reflexivity].
    destruct (Ha eq_refl) as (Hn & w & Hw & Hc & Hts & Hcut).
    destruct (Z.max_spec h (vr_upload_timestamp r)) as [[_ E]|[_ E]]; rewrite E; [|left; reflexivity].
    right. exists vid, w. split; [left; reflexivity|]. split; [exact Hn|].
    split; [exact (Hk2 _ _ Hw)|]. split; [exact Hc|]. split; [exact Hts|exact Hcut].
  - right. exists v, w. split; [right; exact Hin|]. split; [|auto].
    destruct (vs !! v) as [x|] eqn:Ev; [|reflexivity].
    rewrite (Hk1 v x Ev) in Hn. discriminate Hn.
Qed.

Lemma process_channel_mark_stored (vs : gmap string video) (ch : channel) (now max_age_days : Z)
    (resp : video_list) (env : video_env) :
  0 <= true_latest_known_video_ts_in_db vs (ch_id ch) ->
  (forall vid, add_video_db_ok env vid = true) ->
  let '(vs', m) := process_channel vs ch now max_age_days resp env in
  m = ch_last_checked_timestamp ch \/ m = now
  \/ (true_latest_known_video_ts_in_db vs (ch_id ch) < m
      /\ exists ids vid v, resp = VL_ids ids /\ In vid ids /\ vs !! vid = None /\ vs' !! vid = Some v
         /\ v_channel_id v = ch_id ch /\ ts_or0 (v_upload_ts v) = m
         /\ effective_cutoff_ts vs (ch_id ch) now max_age_days < m).
Proof.
  intros H0 Hok. unfold process_channel.
  destruct (prelude_raises vs ch now max_age_days); [left; reflexivity|].
  destruct (handle_truthy (ch_handle ch)); simpl; [|right; left; reflexivity].
  destruct resp as [|[|vid0 rest]|]; try (right; left; reflexivity); [|left; reflexivity].
  pose proof (run_videos_mark_stored vs (vid0 :: rest) (ch_id ch) env
                (effective_cutoff_ts vs (ch_id ch) now max_age_days) 0 Hok) as Hr.
  destruct (run_videos vs (vid0 :: rest) (ch_id ch) env _ 0) as [h vs'].
  destruct (Z.ltb_spec (true_latest_known_video_ts_in_db vs (ch_id ch)) h); [|left; reflexivity].
  destruct Hr as [E|(vid & v & Hin & Hn & Hs & Hc & Hts & Hcut)]; [lia|].
  right; right. split; [assumption|].
  exists (vid0 :: rest), vid, v. split; [reflexivity|]. auto 8.
Qed.

End YouTubeFacts.

(* ------------------------------------------------------------------ *)
(** ** High-water marks and cutoffs of both fetchers *)
(* ------------------------------------------------------------------ *)
Module MarkFacts.
Import Persist.

(** C1 (amended): the Steam position never decreases over a sequence of
    runs, and a run that moves it sets it to the largest timestamp among
    the reviews it handed to [add_reviews_bulk], none of which is above
    the new position. The YouTube [last_checked_timestamp] after a run is
    the old value, the run's clock [now] (no handle, no list, empty list),
    or, when the video inserts commit, the upload timestamp of a listed
    video of the channel that the run stored, which passed the effective
    cutoff and lies above the newest upload stored before the run; in
    particular it can go down. *)
Theorem high_water_marks :
  (forall (s : gmap Z row) (appid last_fetch : Z) (pages : list Steam.response),
     0 <= last_fetch ->
     let handed := fst (fst (Steam.fetch_reviews (Some last_fetch) pages)) in
     let '(_, m) := Steam.fetch_cycle s appid last_fetch pages in
     last_fetch <= m
     /\ (m = last_fetch \/ exists r, In r handed /\ Steam.rd_timestamp_created r = m)
     /\ (forall r, In r handed -> Steam.rd_timestamp_created r <= m))
  /\ (forall (s : gmap Z row) (appid last_fetch : Z) (runs : list (list Steam.response)),
        0 <= last_fetch -> Sorted Z.le (last_fetch :: Steam.run_cycles s appid last_fetch runs))
  /\ (forall (vs : gmap string video) (ch : YouTube.channel) (now max_age_days : Z)
        (resp : YouTube.video_list) (env : YouTube.video_env),
        0 <= YouTube.true_latest_known_video_ts_in_db vs (YouTube.ch_id ch) ->
        (forall vid, YouTube.add_video_db_ok env vid = true) ->
        let '(vs', m) := YouTube.process_channel vs ch now max_age_days resp env in
        m = YouTube.ch_last_checked_timestamp ch \/ m = now
        \/ (YouTube.true_latest_known_video_ts_in_db vs (YouTube.ch_id ch) < m
            /\ exists ids vid v, resp = YouTube.VL_ids ids /\ In vid ids
               /\ vs !! vid = None /\ vs' !! vid = Some v /\ v_channel_id v = YouTube.ch_id ch
               /\ YouTubeFacts.ts_or0 (v_upload_ts v) = m
               /\ YouTube.effective_cutoff_ts vs (YouTube.ch_id ch) now max_age_days < m)).
Proof.
  refine (conj SteamFacts.fetch_cycle_mark (conj SteamFacts.run_cycles_sorted _)).
  exact YouTubeFacts.process_channel_mark_stored.
Qed.

(** C1 counterexample: a channel whose video list comes back empty at
    [now = 1700000000] gets that clock value as its mark; in the next run,
    an hour later, a video uploaded at 1699990000 is stored and the mark
    is set to 1699990000, below the previous one. *)
Lemma high_water_marks_counterexample :
  let env := YouTube.mkVideoEnv
               (fun vid => if String.eqb vid "v1" then Some (Some 1699990000) else None)
               (fun _ => true) in
  let ch := YouTube.mkChannel "UC1" (Some "@chan") 1690000000 in
  let '(vs1, m1) := YouTube.process_channel ∅ ch 1700000000 30 (YouTube.VL_ids []) env in
  let '(vs2, m2) := YouTube.process_channel vs1 (YouTube.mkChannel "UC1" (Some "@chan") m1)
                      1700003600 30 (YouTube.VL_ids ["v1"]) env in
  m1 = 1700000000 /\ m2 = 1699990000 /\ m2 < m1 /\ is_Some (vs2 !! "v1").
Proof.
  vm_compute. refine (conj eq_refl (conj eq_refl (conj eq_refl _))). eexists. reflexivity.
Qed.

(** C10 (amended): the YouTube fetcher's effective cutoff is the maximum
    of the newest stored upload timestamp of the channel and
    [now - max_age_days * 86400], and every video a run newly stores has
    an upload timestamp above it. The Steam fetcher has no look-back
    window: its cutoff is [last_fetched_timestamp] alone, a position of 0
    filters nothing, and a review newer than the position is handed on
    however old it is. *)
Theorem effective_cutoffs :
  (forall (vs : gmap string video) (channel_id : string) (now max_age_days : Z),
     YouTube.effective_cutoff_ts vs channel_id now max_age_days
     = Z.max (YouTube.true_latest_known_video_ts_in_db vs channel_id) (now - max_age_days * 86400))
  /\ (forall (vs : gmap string video) (ch : YouTube.channel) (now max_age_days : Z)
        (resp : YouTube.video_list) (env : YouTube.video_env) (k : string) (v : video),
        vs !! k = None ->
        fst (YouTube.process_channel vs ch now max_age_days resp env) !! k = Some v ->
        Z.max (YouTube.true_latest_known_video_ts_in_db vs (YouTube.ch_id ch)) (now - max_age_days * 86400)
        < YouTubeFacts.ts_or0 (v_upload_ts v))
  /\ (forall (T : Z) (pages : list Steam.response) (r : Steam.review_data),
        T <> 0 -> In r (fst (fst (Steam.fetch_reviews (Some T) pages))) -> T < Steam.rd_timestamp_created r)
  /\ (forall pages : list Steam.response, Steam.fetch_reviews (Some 0) pages = Steam.fetch_reviews None pages)
  /\ (forall (T t : Z) (rd : Steam.review_data),
        Steam.rd_timestamp_created rd = t -> T < t ->
        fst (fst (Steam.fetch_reviews (Some T) [Steam.Resp_json true (Some [rd]) None])) = [rd]).
Proof.
  refine (conj (fun _ _ _ _ => eq_refl) (conj YouTubeFacts.process_channel_store
            (conj SteamFacts.handed_above_cutoff (conj SteamFacts.fetch_reviews_zero _)))).
  intros T t rd Ht HT. unfold Steam.fetch_reviews. simpl.
  unfold Steam.cutoff_hit. rewrite Ht.
  destruct (Py.opt_int_truthy (Some T)); simpl; [|reflexivity].
  destruct (Z.leb_spec t T); [lia|reflexivity].
Qed.

(** C10 counterexample: an app at position 500 hands on a review created
    at 600, although 600 is not above the maximum of the position and a
    30-day window before 1700000000. *)
Lemma effective_cutoffs_counterexample :
  let rd := Steam.mkReviewData 1 "english" "old" 600 (Some true) in
  Steam.fetch_cycle ∅ 7 500 [Steam.Resp_json true (Some [rd]) None]
    = (<[1 := Steam.insert_dict 7 rd]> ∅, 600)
  /\ 600 <= Z.max 500 (1700000000 - 30 * 86400).
Proof.
  vm_compute. split; [reflexivity|discriminate].
Qed.

End MarkFacts.

(* ------------------------------------------------------------------ *)
(** ** The enrichment dispatchers *)
(* ------------------------------------------------------------------ *)
Module EnrichFacts.
Import LLM Enrich.

Section Facts.
Variable LANGUAGE_MAP : string -> option string.
Variable load_cache : Z -> gmap string string.
Variable OPENAI_MODEL : string.
Variable client_ok : bool.
Variable llm : oracle.
Variable parse_analysis : string -> option analysis_result.

Lemma analysis_kwargs_unbound (m : list message) (model : string) (t mt : Z) :
  bind_kwargs call_openai_api_params true
    [("messages", VMessages m); ("model", VStr model); ("temperature", VNum t); ("max_tokens", VNum mt)]
  = None.
Proof. reflexivity. Qed.

Lemma analysis_call_raises (m : list message) (model : string) :
  call_openai_api client_ok llm
    [("messages", VMessages m); ("model", VStr model); ("temperature", VNum 0); ("max_tokens", VNum 1000)]
  = Exc TypeError.
Proof. unfold call_openai_api. rewrite analysis_kwargs_unbound. reflexivity. Qed.

Lemma analyze_review_text_error (model text : string) :
  analyze_review_text client_ok llm parse_analysis model text
  = if Py.strip_is_empty text then [("error", "Input text is empty.")]
    else [("error", "Exception during analysis: isinstance() arg 2 must be a type, a tuple of types, or a union")].
Proof.
  unfold analyze_review_text. destruct (Py.strip_is_empty text); [reflexivity|].
  rewrite analysis_call_raises. reflexivity.
Qed.

Lemma update_review_analysis_lookup (db : gmap Z review) (id : Z) (status : string) (r : review) :
  db !! id = Some r ->
  exists r', update_review_analysis db id status !! id = Some r' /\ r_analysis_status r' = status.
Proof.
  intros Hr. unfold update_review_analysis. rewrite Hr.
  eexists. rewrite lookup_insert_eq. split; reflexivity.
Qed.

Lemma process_single_analysis_failed (model : string) (db : gmap Z review) (rv : review) :
  let '(db', (id, st, _)) := process_single_analysis client_ok llm parse_analysis model db rv in
  db' = update_review_analysis db (r_id rv) "failed" /\ id = r_id rv /\ st = "failed".
Proof.
  unfold process_single_analysis.
  destruct (text_to_analyze rv) as [t|]; [|split; [reflexivity|split; reflexivity]].
  destruct (Py.strip_is_empty t) eqn:E; [split; [reflexivity|split; reflexivity]|].
  rewrite analyze_review_text_error, E. split; [reflexivity|split; reflexivity].
Qed.












End Facts.
(** C5: [analyze_review_text] passes [messages=] to [call_openai_api],
    whose required parameter [prompt] is then unbound: the binding raises
    TypeError before the body runs, tenacity's retry predicate raises a
    second TypeError on it ([isinstance] with a lambda in the tuple), and
    the handler returns an error dict carrying that message. So for every
    text the result is an error dict, whatever the LLM would answer:
    ['Input text is empty.'] when [text.strip()] is empty (Unicode
    whitespace included, e.g. U+3000, UTF-8 E3 80 80), the exception
    message otherwise; and
    [_process_single_analysis] always records ['failed'], for every review
    of every batch. *)
Theorem analysis_never_succeeds :
  (forall (m : list message) (model : string),
     bind_kwargs call_openai_api_params true
       [("messages", VMessages m); ("model", VStr model); ("temperature", VNum 0); ("max_tokens", VNum 1000)]
     = None)
  /\ (forall client_ok llm parse_analysis (model text : string),
        analyze_review_text client_ok llm parse_analysis model text
        = if Py.strip_is_empty text then [("error", "Input text is empty.")]
          else [("error", "Exception during analysis: isinstance() arg 2 must be a type, a tuple of types, or a union")])
  /\ (forall client_ok llm parse_analysis (model : string),
        analyze_review_text client_ok llm parse_analysis model
          (String "227" (String "128" (String "128" EmptyString)))
        = [("error", "Input text is empty.")])
  /\ (forall client_ok llm parse_analysis (model : string) (db : gmap Z review) (rv : review),
        let '(db', (_, st, _)) := process_single_analysis client_ok llm parse_analysis model db rv in
        st = "failed"
        /\ (forall r, db !! r_id rv = Some r ->
              exists r', db' !! r_id rv = Some r' /\ r_analysis_status r' = "failed"))
  /\ (forall client_ok llm parse_analysis (model : string) (db : gmap Z review) (batch : list review),
        Forall (fun x => snd (fst x) = "failed")
          (snd (submit_analyses client_ok llm parse_analysis model db batch))).
Proof.
  refine (conj (fun m model => analysis_kwargs_unbound m model 0 1000) (conj _ (conj _ (conj _ _)))).
  - intros client_ok llm parse_analysis model text. apply analyze_review_text_error.
  - intros client_ok llm parse_analysis model. rewrite analyze_review_text_error. reflexivity.
  - intros client_ok llm parse_analysis model db rv.
    pose proof (process_single_analysis_failed client_ok llm parse_analysis model db rv) as H.
    destruct (process_single_analysis client_ok llm parse_analysis model db rv) as [db' [[id st] err]].
    destruct H as (-> & _ & ->). split; [reflexivity|].
    intros r Hr. exact (update_review_analysis_lookup db (r_id rv) "failed" r Hr).
  - intros client_ok llm parse_analysis model db batch. revert db.
    induction batch as [|rv rest IH]; intros db; simpl; [constructor|].
    pose proof (process_single_analysis_failed client_ok llm parse_analysis model db rv) as H.
    destruct (process_single_analysis client_ok llm parse_analysis model db rv) as [db' [[id st] err]].
    destruct H as (_ & _ & ->). specialize (IH db').
    destruct (submit_analyses client_ok llm parse_analysis model db' rest) as [db'' results].
    constructor; [reflexivity|exact IH].
Qed.









End EnrichFacts.

(* ------------------------------------------------------------------ *)
(** ** The summary report *)
(* ------------------------------------------------------------------ *)
Module ReportFacts.
Import Enrich Report.

(** C9 (divergence): each language's [task_index] is taken as
    [len(tasks) - 1] before its task is appended. With two languages that
    both have text and a non-empty overall text, the first language reads
    [results[-1]], the overall summary, and the second reads the first
    language's result: whatever the first language's task gives back (for
    instance the error dict of a failed LLM call) is shown as the second
    language's summary, and the first language shows the overall summary
    as its own. *)
Theorem summary_misattributed LANGUAGE_MAP (en_text zh_text overall_text : string)
    (run_task : string -> task_result) :
  Py.strip_is_empty en_text = false ->
  Py.strip_is_empty zh_text = false ->
  Py.strip_is_empty overall_text = false ->
  summarize LANGUAGE_MAP [mkLangGroup "english" true en_text; mkLangGroup "schinese" true zh_text]
    overall_text run_task
  = Some ([mkLangEntry "english" (Some (-1))
             (Some match run_task "overall" with
                   | TaskReturned d => d
                   | TaskRaised msg => [("error", "Task execution failed: " ++ msg)]
                   end);
           mkLangEntry "schinese" (Some 0)
             (Some match run_task (lang_context LANGUAGE_MAP "english") with
                   | TaskReturned d => d
                   | TaskRaised msg => [("error", "Task execution failed: " ++ msg)]
                   end)],
          match run_task "overall" with
          | TaskReturned d => d
          | TaskRaised msg => [("error", "Overall task execution failed: " ++ msg)]
          end).
Proof.
  intros Hen Hzh Hov. unfold summarize. simpl. rewrite Hen, Hzh, Hov. simpl.
  destruct (run_task "overall"), (run_task (lang_context LANGUAGE_MAP "english")); reflexivity.
Qed.

(** The English summary call gets no answer ([acall_openai_api] returns
    [None]); every task returns its dict. English shows the overall
    summary, and Chinese shows English's failure. *)
Lemma summary_misattributed_witness :
  let LMAP := fun code => if String.eqb code "english" then Some "English"
                          else if String.eqb code "schinese" then Some "Simplified Chinese" else None in
  let parse := fun t => if String.eqb t "{all}" then Parsed [("summary", "all reviews")]
                        else if String.eqb t "{zh}" then Parsed [("summary", "chinese reviews")]
                        else ParseError in
  let en_ctx := "language English (english)" in
  let run_task := fun ctx =>
    TaskReturned
      (generate_single_summary parse
         (if String.eqb ctx "overall" then "good hao" else if String.eqb ctx en_ctx then "good" else "hao")
         ctx
         (if String.eqb ctx "overall" then Some "{all}" else if String.eqb ctx en_ctx then None
          else Some "{zh}")) in
  Py.strip_is_empty "good" = false /\ Py.strip_is_empty "hao" = false
  /\ Py.strip_is_empty "good hao" = false
  /\ summarize LMAP [mkLangGroup "english" true "good"; mkLangGroup "schinese" true "hao"] "good hao" run_task
     = Some ([mkLangEntry "english" (Some (-1)) (Some [("summary", "all reviews")]);
              mkLangEntry "schinese" (Some 0)
                (Some [("error", "LLM summary call failed (language English (english)) (returned None/empty).")])],
             [("summary", "all reviews")]).
Proof.
  cbv zeta. split; [reflexivity|split; [reflexivity|split; [reflexivity|]]].
  rewrite (summary_misattributed _ "good" "hao" "good hao" _ eq_refl eq_refl eq_refl).
  reflexivity.
Defined.

End ReportFacts.

(* ------------------------------------------------------------------ *)
(** ** The enrichment work queues *)
(* ------------------------------------------------------------------ *)
Module QueueFacts.
Import LLM Enrich Queue.

Lemma elem_of_pending_ids (needs : review -> bool) (db : gmap Z review) (k : Z) :
  k ∈ pending_ids needs db <-> exists r, db !! k = Some r /\ needs r = true.
Proof.
  unfold pending_ids. rewrite elem_of_dom. split.
  - intros [r Hr]. apply map_lookup_filter_Some in Hr. exists r. exact Hr.
  - intros [r Hr]. exists r. apply map_lookup_filter_Some. exact Hr.
Qed.

Lemma In_firstn_In {A} (n : nat) (l : list A) (x : A) : In x (firstn n l) -> In x l.
Proof. intros H. rewrite <- (firstn_skipn n l). apply in_or_app. left. exact H. Qed.

Lemma In_selection (needs : review -> bool) (db : gmap Z review) (n : nat) (rv : review) :
  well_keyed db ->
  In rv (firstn n (List.filter needs (map snd (map_to_list db)))) ->
  needs rv = true /\ db !! r_id rv = Some rv.
Proof.
  intros Hk Hin. apply In_firstn_In, filter_In in Hin. destruct Hin as [Hin Hn].
  apply in_map_iff in Hin. destruct Hin as [[k r] [Hs Hin]]. simpl in Hs. subst r.
  apply list_elem_of_In, elem_of_map_to_list in Hin.
  split; [exact Hn|]. rewrite (Hk k rv Hin). exact Hin.
Qed.

Lemma selection_complete (needs : review -> bool) (db : gmap Z review) (k : Z) (r : review) :
  db !! k = Some r -> needs r = true -> In r (List.filter needs (map snd (map_to_list db))).
Proof.
  intros Hk Hn. apply filter_In. split; [|exact Hn].
  apply in_map_iff. exists (k, r). split; [reflexivity|].
  apply list_elem_of_In, elem_of_map_to_list. exact Hk.
Qed.

Lemma firstn_partial {A} (n : nat) (l : list A) :
  (length (firstn n l) < n)%nat -> firstn n l = l.
Proof. intros H. rewrite length_firstn in H. apply firstn_all2. lia. Qed.

(** One batch of a queue run: the rows the step rewrites are those of the
    batch, and each row of the batch ends [done_]. *)
Section Step.
Variable needs : review -> bool.
Variable done_ : review -> Prop.
Hypothesis done_not_needs : forall r, done_ r -> needs r = false.
Variable step : gmap Z review -> list review -> gmap Z review.
Hypothesis step_rows : forall db batch k r', step db batch !! k = Some r' ->
  exists r, db !! k = Some r /\ r_id r' = r_id r /\ (r' = r \/ (In k (map r_id batch) /\ done_ r')).
Hypothesis step_dom : forall db batch k, step db batch !! k = None <-> db !! k = None.
Hypothesis step_batch : forall db batch rv r, In rv batch -> db !! r_id rv = Some r ->
  exists r', step db batch !! r_id rv = Some r' /\ done_ r'.

Lemma step_keyed (db : gmap Z review) (batch : list review) :
  well_keyed db -> well_keyed (step db batch).
Proof using All.
  intros H k r' Hk. destruct (step_rows _ _ _ _ Hk) as (r & Hr & Hid & _).
  rewrite Hid. exact (H k r Hr).
Qed.

Lemma step_untouched (db : gmap Z review) (n : nat) (k : Z) (r : review) :
  well_keyed db -> db !! k = Some r -> needs r = false ->
  step db (firstn n (List.filter needs (map snd (map_to_list db)))) !! k = Some r.
Proof using All.
  intros Hkey Hk Hn.
  destruct (step db (firstn n (List.filter needs (map snd (map_to_list db)))) !! k) as [r'|] eqn:E.
  - destruct (step_rows _ _ _ _ E) as (r0 & Hr0 & _ & [-> | [Hin _]]).
    + congruence.
    + apply in_map_iff in Hin. destruct Hin as (rv & Hid & Hin).
      destruct (In_selection needs db n rv Hkey Hin) as [Hnv Hv].
      rewrite Hid, Hk in Hv. injection Hv as ->. congruence.
  - apply step_dom in E. congruence.
Qed.

Lemma step_subset (db : gmap Z review) (batch : list review) :
  pending_ids needs (step db batch) ⊆ pending_ids needs db.
Proof using All.
  intros k Hk. apply elem_of_pending_ids in Hk. destruct Hk as (r' & Hr' & Hn).
  destruct (step_rows _ _ _ _ Hr') as (r & Hr & _ & [-> | [_ Hd]]).
  - apply elem_of_pending_ids. exists r. split; assumption.
  - rewrite (done_not_needs r' Hd) in Hn. discriminate Hn.
Qed.

Lemma step_strict (db : gmap Z review) (n : nat) :
  well_keyed db -> firstn n (List.filter needs (map snd (map_to_list db))) <> [] ->
  (size (pending_ids needs (step db (firstn n (List.filter needs (map snd (map_to_list db))))))
   < size (pending_ids needs db))%nat.
Proof using All.
  intros Hkey Hne. apply subset_size. split; [apply step_subset|].
  destruct (firstn n (List.filter needs (map snd (map_to_list db)))) as [|rv rest] eqn:E;
    [congruence|].
  assert (Hin : In rv (firstn n (List.filter needs (map snd (map_to_list db)))))
    by (rewrite E; left; reflexivity).
  destruct (In_selection needs db n rv Hkey Hin) as [Hnv Hv].
  intros Hsub.
  assert (Hp : r_id rv ∈ pending_ids needs db)
    by (apply elem_of_pending_ids; exists rv; split; assumption).
  apply Hsub, elem_of_pending_ids in Hp. destruct Hp as (r' & Hr' & Hn').
  destruct (step_batch db (rv :: rest) rv rv (or_introl eq_refl) Hv) as (r'' & Hr'' & Hd).
  rewrite Hr' in Hr''. injection Hr'' as ->.
  rewrite (done_not_needs r'' Hd) in Hn'. discriminate Hn'.
Qed.

Lemma step_partial (db : gmap Z review) (n : nat) :
  well_keyed db ->
  (length (firstn n (List.filter needs (map snd (map_to_list db)))) < n)%nat ->
  forall k r', step db (firstn n (List.filter needs (map snd (map_to_list db)))) !! k = Some r' ->
  needs r' = false.
Proof using All.
  intros Hkey Hlen k r' Hk.
  destruct (step_rows _ _ _ _ Hk) as (r & Hr & _ & [-> | [_ Hd]]); [|exact (done_not_needs r' Hd)].
  destruct (needs r) eqn:Hn; [|reflexivity].
  assert (Hin : In r (firstn n (List.filter needs (map snd (map_to_list db))))).
  { rewrite (firstn_partial n _ Hlen). exact (selection_complete needs db k r Hr Hn). }
  assert (Hr2 : db !! r_id r = Some r) by (rewrite (Hkey k r Hr); exact Hr).
  destruct (step_batch db _ r r Hin Hr2) as (r'' & Hr'' & Hd).
  rewrite (Hkey k r Hr), Hk in Hr''. injection Hr'' as <-.
  rewrite (done_not_needs r Hd) in Hn. discriminate Hn.
Qed.

Lemma drained_step (db db' : gmap Z review) (n : nat) :
  well_keyed db ->
  let db1 := step db (firstn n (List.filter needs (map snd (map_to_list db)))) in
  (forall k r', db' !! k = Some r' -> needs r' = false)
  /\ (forall k r, db1 !! k = Some r -> needs r = true -> exists r', db' !! k = Some r' /\ done_ r')
  /\ (forall k r, db1 !! k = Some r -> needs r = false -> db' !! k = Some r)
  /\ (forall k, db' !! k = None <-> db1 !! k = None) ->
  (forall k r', db' !! k = Some r' -> needs r' = false)
  /\ (forall k r, db !! k = Some r -> needs r = true -> exists r', db' !! k = Some r' /\ done_ r')
  /\ (forall k r, db !! k = Some r -> needs r = false -> db' !! k = Some r)
  /\ (forall k, db' !! k = None <-> db !! k = None).
Proof using All.
  intros Hkey db1 (H1 & H2 & H3 & H4).
  refine (conj H1 (conj _ (conj _ _))).
  - intros k r Hr Hn.
    destruct (db1 !! k) as [r1|] eqn:E1.
    + destruct (step_rows _ _ _ _ E1) as (r0 & Hr0 & _ & [Heq | [_ Hd]]).
      * assert (r1 = r) as -> by congruence. exact (H2 k r E1 Hn).
      * exists r1. split; [exact (H3 k r1 E1 (done_not_needs r1 Hd))|exact Hd].
    + apply step_dom in E1. congruence.
  - intros k r Hr Hn. apply H3; [|exact Hn]. exact (step_untouched db n k r Hkey Hr Hn).
  - intros k. rewrite H4. apply step_dom.
Qed.

Lemma drained_partial (db : gmap Z review) (n : nat) :
  well_keyed db ->
  (length (firstn n (List.filter needs (map snd (map_to_list db)))) < n)%nat ->
  let db' := step db (firstn n (List.filter needs (map snd (map_to_list db)))) in
  (forall k r', db' !! k = Some r' -> needs r' = false)
  /\ (forall k r, db !! k = Some r -> needs r = true -> exists r', db' !! k = Some r' /\ done_ r')
  /\ (forall k r, db !! k = Some r -> needs r = false -> db' !! k = Some r)
  /\ (forall k, db' !! k = None <-> db !! k = None).
Proof using All.
  intros Hkey Hlen db'.
  refine (conj (step_partial db n Hkey Hlen) (conj _ (conj _ _))).
  - intros k r Hr Hn.
    assert (Hin : In r (firstn n (List.filter needs (map snd (map_to_list db))))).
    { rewrite (firstn_partial n _ Hlen). exact (selection_complete needs db k r Hr Hn). }
    assert (Hr2 : db !! r_id r = Some r) by (rewrite (Hkey k r Hr); exact Hr).
    destruct (step_batch db _ r r Hin Hr2) as (r' & Hr' & Hd).
    exists r'. rewrite (Hkey k r Hr) in Hr'. split; [exact Hr'|exact Hd].
  - intros k r Hr Hn. exact (step_untouched db n k r Hkey Hr Hn).
  - intros k. apply step_dom.
Qed.

Lemma drained_empty (db : gmap Z review) (n : nat) :
  (0 < n)%nat ->
  firstn n (List.filter needs (map snd (map_to_list db))) = [] ->
  (forall k r', db !! k = Some r' -> needs r' = false)
  /\ (forall k r, db !! k = Some r -> needs r = true -> exists r', db !! k = Some r' /\ done_ r')
  /\ (forall k r, db !! k = Some r -> needs r = false -> db !! k = Some r)
  /\ (forall k, db !! k = None <-> db !! k = None).
Proof using All.
  intros Hn E.
  assert (Hnone : forall k r, db !! k = Some r -> needs r = false).
  { intros k r Hr. destruct (needs r) eqn:Hnr; [|reflexivity].
    pose proof (selection_complete needs db k r Hr Hnr) as Hin.
    destruct (List.filter needs (map snd (map_to_list db))) as [|x l]; [destruct Hin|].
    destruct n as [|n]; [lia|discriminate E]. }
  refine (conj Hnone (conj _ (conj _ _))).
  - intros k r Hr Hnr. rewrite (Hnone k r Hr) in Hnr. discriminate Hnr.
  - intros k r Hr _. exact Hr.
  - intros k. reflexivity.
Qed.

End Step.
End QueueFacts.

Module QueueRunFacts.
Import LLM Enrich Queue QueueFacts.


Lemma failed_not_pending (r : review) :
  r_analysis_status r = "failed" -> needs_analysis r = false.
Proof. unfold needs_analysis. intros ->. reflexivity. Qed.



Lemma update_review_analysis_rows (db : gmap Z review) (id k : Z) (st : string) (r' : review) :
  update_review_analysis db id st !! k = Some r' ->
  exists r, db !! k = Some r /\ r_id r' = r_id r /\ (r' = r \/ (id = k /\ r_analysis_status r' = st)).
Proof.
  unfold update_review_analysis. destruct (db !! id) as [r0|] eqn:E0.
  - destruct (Z.eq_dec id k) as [<-|Hne].
    + rewrite lookup_insert_eq. intros H. injection H as <-.
      exists r0. split; [exact E0|split; [reflexivity|right; split; reflexivity]].
    + rewrite lookup_insert_ne by exact Hne. intros H.
      exists r'. split; [exact H|split; [reflexivity|left; reflexivity]].
  - intros H. exists r'. split; [exact H|split; [reflexivity|left; reflexivity]].
Qed.

Lemma update_review_analysis_none (db : gmap Z review) (id k : Z) (st : string) :
  update_review_analysis db id st !! k = None <-> db !! k = None.
Proof.
  unfold update_review_analysis. destruct (db !! id) as [r0|] eqn:E0; [|reflexivity].
  destruct (Z.eq_dec id k) as [<-|Hne].
  - rewrite lookup_insert_eq, E0. split; discriminate.
  - rewrite lookup_insert_ne by exact Hne. reflexivity.
Qed.

Section Runs.
Variable LANGUAGE_MAP : string -> option string.
Variable load_cache : Z -> gmap string string.
Variable OPENAI_MODEL : string.
Variable client_ok : bool.
Variable llm : oracle.
Variable parse_analysis : string -> option analysis_result.




Lemma submit_analyses_rows (model : string) (db : gmap Z review) (batch : list review) (k : Z) (r' : review) :
  fst (submit_analyses client_ok llm parse_analysis model db batch) !! k = Some r' ->
  exists r, db !! k = Some r /\ r_id r' = r_id r
  /\ (r' = r \/ (In k (map r_id batch) /\ r_analysis_status r' = "failed")).
Proof.
  revert db r'. induction batch as [|rv rest IH]; intros db r'; simpl.
  - intros H. exists r'. split; [exact H|split; [reflexivity|left; reflexivity]].
  - pose proof (EnrichFacts.process_single_analysis_failed client_ok llm parse_analysis model db rv) as Hp.
    destruct (process_single_analysis client_ok llm parse_analysis model db rv) as [db1 [[id st] err]].
    destruct Hp as (Hdb1 & _).
    specialize (IH db1).
    destruct (submit_analyses client_ok llm parse_analysis model db1 rest) as [db'' results].
    simpl in IH |- *. intros H.
    destruct (IH r' H) as (r1 & Hr1 & Hid1 & Hc1).
    rewrite Hdb1 in Hr1.
    destruct (update_review_analysis_rows db (r_id rv) k "failed" r1 Hr1) as (r & Hr & Hid & Hc).
    exists r. split; [exact Hr|split; [congruence|]].
    destruct Hc1 as [-> | [Hin Ht]].
    + destruct Hc as [-> | [Hk Hs]]; [left; reflexivity|].
      right. split; [left; exact Hk|exact Hs].
    + right. split; [right; exact Hin|exact Ht].
Qed.

Lemma submit_analyses_none (model : string) (db : gmap Z review) (batch : list review) (k : Z) :
  fst (submit_analyses client_ok llm parse_analysis model db batch) !! k = None <-> db !! k = None.
Proof.
  revert db. induction batch as [|rv rest IH]; intros db; simpl; [reflexivity|].
  pose proof (EnrichFacts.process_single_analysis_failed client_ok llm parse_analysis model db rv) as Hp.
  destruct (process_single_analysis client_ok llm parse_analysis model db rv) as [db1 [[id st] err]].
  destruct Hp as (Hdb1 & _).
  specialize (IH db1).
  destruct (submit_analyses client_ok llm parse_analysis model db1 rest) as [db'' results].
  simpl in IH |- *. rewrite IH, Hdb1. apply update_review_analysis_none.
Qed.

Lemma submit_analyses_batch (model : string) (db : gmap Z review) (batch : list review) (rv r : review) :
  In rv batch -> db !! r_id rv = Some r ->
  exists r', fst (submit_analyses client_ok llm parse_analysis model db batch) !! r_id rv = Some r'
  /\ r_analysis_status r' = "failed".
Proof.
  revert db r. induction batch as [|x rest IH]; intros db r; simpl; [intros []|].
  pose proof (EnrichFacts.process_single_analysis_failed client_ok llm parse_analysis model db x) as Hp.
  destruct (process_single_analysis client_ok llm parse_analysis model db x) as [db1 [[id st] err]].
  destruct Hp as (Hdb1 & _).
  specialize (IH db1).
  pose proof (submit_analyses_rows model db1 rest (r_id rv)) as Hrows.
  pose proof (submit_analyses_none model db1 rest (r_id rv)) as Hnone.
  destruct (submit_analyses client_ok llm parse_analysis model db1 rest) as [db'' results].
  simpl in IH, Hrows, Hnone |- *. intros [-> | Hin] Hr.
  - destruct (EnrichFacts.update_review_analysis_lookup db (r_id rv) "failed" r Hr) as (r1 & H1 & H1s).
    rewrite <- Hdb1 in H1.
    destruct (db'' !! r_id rv) as [r'|] eqn:E.
    + destruct (Hrows r' eq_refl) as (r0 & Hr0 & _ & [Heq | [_ Hf]]).
      * exists r'. split; [reflexivity|congruence].
      * exists r'. split; [reflexivity|exact Hf].
    + rewrite (proj1 Hnone eq_refl) in H1. discriminate H1.
  - destruct (db1 !! r_id rv) as [r1|] eqn:E1.
    + exact (IH r1 Hin eq_refl).
    + rewrite Hdb1 in E1. apply update_review_analysis_none in E1. congruence.
Qed.

Lemma selection_nil (needs : review -> bool) (db : gmap Z review) (n : nat) :
  (forall k r, db !! k = Some r -> needs r = false) ->
  firstn n (List.filter needs (map snd (map_to_list db))) = [].
Proof.
  intros H. destruct (List.filter needs (map snd (map_to_list db))) as [|x l] eqn:E;
    [apply firstn_nil|].
  assert (Hin : In x (List.filter needs (map snd (map_to_list db)))) by (rewrite E; left; reflexivity).
  apply filter_In in Hin. destruct Hin as [Hin Hn].
  apply in_map_iff in Hin. destruct Hin as [[k r] [Hs Hin]]. simpl in Hs. subst r.
  apply list_elem_of_In, elem_of_map_to_list in Hin. rewrite (H k x Hin) in Hn. discriminate Hn.
Qed.


Lemma process_analysis_drains_core (fuel : nat) (db : gmap Z review) :
  well_keyed db ->
  (size (pending_ids needs_analysis db) < fuel)%nat ->
  exists db',
    process_analysis OPENAI_MODEL client_ok llm parse_analysis fuel db = Some db'
    /\ (forall k r', db' !! k = Some r' -> needs_analysis r' = false)
    /\ (forall k r, db !! k = Some r -> needs_analysis r = true ->
          exists r', db' !! k = Some r' /\ r_analysis_status r' = "failed")
    /\ (forall k r, db !! k = Some r -> needs_analysis r = false -> db' !! k = Some r)
    /\ (forall k, db' !! k = None <-> db !! k = None).
Proof.
  revert db. induction fuel as [|f IH]; intros db Hkey Hsize; [lia|].
  pose (step := fun d b => fst (submit_analyses client_ok llm parse_analysis OPENAI_MODEL d b)).
  pose proof (fun d b k r' => submit_analyses_rows OPENAI_MODEL d b k r') as Hrows.
  pose proof (fun d b k => submit_analyses_none OPENAI_MODEL d b k) as Hdom.
  pose proof (fun d b => submit_analyses_batch OPENAI_MODEL d b) as Hbatch.
  cbn [process_analysis].
  destruct (get_reviews_needing_analysis db ANALYSIS_BATCH_SIZE) as [|rv rest] eqn:Esel;
    unfold get_reviews_needing_analysis in Esel.
  - exists db. split; [reflexivity|].
    exact (drained_empty needs_analysis _ failed_not_pending step Hrows Hdom Hbatch db
             ANALYSIS_BATCH_SIZE ltac:(cbv; lia) Esel).
  - pose proof (drained_partial needs_analysis _ failed_not_pending step Hrows Hdom Hbatch db
                  ANALYSIS_BATCH_SIZE Hkey) as Hpart.
    pose proof (drained_step needs_analysis _ failed_not_pending step Hrows Hdom Hbatch db)
      as Hstep.
    pose proof (step_keyed needs_analysis _ failed_not_pending step Hrows Hdom Hbatch db
                  (rv :: rest) Hkey) as Hkey1.
    pose proof (step_strict needs_analysis _ failed_not_pending step Hrows Hdom Hbatch db
                  ANALYSIS_BATCH_SIZE Hkey) as Hlt.
    rewrite Esel in Hpart, Hlt. specialize (Hlt ltac:(discriminate)).
    unfold step in Hpart, Hkey1, Hlt, Hstep.
    destruct (submit_analyses client_ok llm parse_analysis OPENAI_MODEL db (rv :: rest))
      as [db1 res] eqn:Es.
    simpl in Hpart, Hkey1, Hlt.
    destruct (Nat.ltb (length (rv :: rest)) ANALYSIS_BATCH_SIZE) eqn:Elt.
    + apply Nat.ltb_lt in Elt. exists db1. split; [reflexivity|]. exact (Hpart Elt).
    + destruct (IH db1 Hkey1 ltac:(lia)) as (db' & Hrun & Hpost).
      exists db'. split; [exact Hrun|].
      specialize (Hstep db' ANALYSIS_BATCH_SIZE Hkey). rewrite Esel, Es in Hstep.
      exact (Hstep Hpost).
Qed.


(** An analysis run ([process_analysis]) over a store keyed by
    recommendation id exits its loop within one iteration more than there
    are reviews pending analysis with a translated or not-required
    translation. When it exits, the analysis query selects nothing. Every
    such review ends with analysis status 'failed', and every other row is
    left unchanged. *)
Theorem process_analysis_drains (fuel : nat) (db : gmap Z review) :
  well_keyed db ->
  (size (pending_ids needs_analysis db) < fuel)%nat ->
  exists db',
    process_analysis OPENAI_MODEL client_ok llm parse_analysis fuel db = Some db'
    /\ get_reviews_needing_analysis db' ANALYSIS_BATCH_SIZE = []
    /\ (forall k r, db !! k = Some r -> needs_analysis r = true ->
          exists r', db' !! k = Some r' /\ r_analysis_status r' = "failed")
    /\ (forall k r, db !! k = Some r -> needs_analysis r = false -> db' !! k = Some r)
    /\ (forall k, db' !! k = None <-> db !! k = None).
Proof.
  intros Hkey Hsize.
  destruct (process_analysis_drains_core fuel db Hkey Hsize)
    as (db' & Hrun & Hnone & Hpend & Hother & Hdom).
  exists db'. split; [exact Hrun|split; [exact (selection_nil needs_analysis db' _ Hnone)|]].
  split; [exact Hpend|split; [exact Hother|exact Hdom]].
Qed.

End Runs.


Lemma process_analysis_drains_witness :
  well_keyed (<[1%Z := mkReview 1 10 "english" (Some "good") None None "not_required" "pending"]> ∅)
  /\ (size (pending_ids needs_analysis
             (<[1%Z := mkReview 1 10 "english" (Some "good") None None "not_required" "pending"]> ∅)) < 2)%nat
  /\ exists db', process_analysis "gpt-4.1" false (fun _ => None) (fun _ => None) 2
                   (<[1%Z := mkReview 1 10 "english" (Some "good") None None "not_required" "pending"]> ∅) = Some db'.
Proof.
  assert (H1 : well_keyed (<[1%Z := mkReview 1 10 "english" (Some "good") None None "not_required" "pending"]> ∅))
    by (apply map_Forall_insert_2; [reflexivity|apply map_Forall_empty]).
  assert (H2 : (size (pending_ids needs_analysis
             (<[1%Z := mkReview 1 10 "english" (Some "good") None None "not_required" "pending"]> ∅)) < 2)%nat)
    by (vm_compute; lia).
  split; [exact H1|split; [exact H2|]].
  destruct (process_analysis_drains "gpt-4.1" false (fun _ => None) (fun _ => None) 2 _ H1 H2)
    as (db' & Hrun & _). exists db'. exact Hrun.
Defined.
End QueueRunFacts.

(* ------------------------------------------------------------------ *)
(** ** Tracked apps and the fetcher run *)
(* ------------------------------------------------------------------ *)
Module TrackedFacts.
Import Persist Steam Tracked.

Lemma fetch_cycle_mark_store_free (s1 s2 : gmap Z row) (appid last_fetch : Z) (pages : list response) :
  snd (fetch_cycle s1 appid last_fetch pages) = snd (fetch_cycle s2 appid last_fetch pages).
Proof.
  unfold fetch_cycle. destruct (fetch_reviews (Some last_fetch) pages) as [[rs hi] nc].
  destruct rs; [reflexivity|]. destruct (Z.ltb last_fetch hi); reflexivity.
Qed.

Lemma fetch_app_spec (s : gmap Z row) (apps : gmap Z tracked_app) (id : Z) (a : tracked_app)
    (p : list response) :
  let '(s', apps') := fetch_app s apps (id, a) p in
  s' = fst (fetch_cycle s id (last_fetch_of a) p)
  /\ (forall k, k <> id -> apps' !! k = apps !! k)
  /\ (apps !! id = None -> apps' !! id = None)
  /\ (apps !! id = Some a ->
        exists a', apps' !! id = Some a' /\ ta_name a' = ta_name a /\ ta_is_active a' = ta_is_active a
        /\ last_fetch_of a' = snd (fetch_cycle s id (last_fetch_of a) p)).
Proof.
  unfold fetch_app, fetch_cycle.
  destruct (fetch_reviews (Some (last_fetch_of a)) p) as [[rs hi] nc].
  destruct rs as [|r0 rs].
  - refine (conj eq_refl (conj (fun _ _ => eq_refl) (conj (fun H => H) _))).
    intros Ha. exists a. split; [exact Ha|split; [reflexivity|split; reflexivity]].
  - destruct (Z.ltb (last_fetch_of a) hi) eqn:Elt.
    + unfold update_last_fetch_time.
      refine (conj eq_refl (conj _ (conj _ _))).
      * intros k Hk. destruct (apps !! id); [|reflexivity]. apply lookup_insert_ne. congruence.
      * intros Hn. rewrite Hn. exact Hn.
      * intros Ha. rewrite Ha. eexists. rewrite lookup_insert_eq.
        split; [reflexivity|split; [reflexivity|split; reflexivity]].
    + refine (conj eq_refl (conj (fun _ _ => eq_refl) (conj (fun H => H) _))).
      intros Ha. exists a. split; [exact Ha|split; [reflexivity|split; reflexivity]].
Qed.

Lemma fetch_cycle_store_keeps (s : gmap Z row) (appid last_fetch : Z) (pages : list response)
    (k : Z) (r : row) :
  s !! k = Some r -> fst (fetch_cycle s appid last_fetch pages) !! k = Some r.
Proof.
  intros Hk. unfold fetch_cycle. destruct (fetch_reviews (Some last_fetch) pages) as [[rs hi] nc].
  destruct rs; [exact Hk|].
  destruct (Z.ltb last_fetch hi); apply PersistFacts.add_reviews_bulk_keeps; exact Hk.
Qed.

Lemma run_fetcher_spec (pages : Z -> list response) (L : list (Z * tracked_app)) :
  forall (s : gmap Z row) (apps : gmap Z tracked_app),
  NoDup (map fst L) ->
  (forall id a, In (id, a) L -> apps !! id = Some a) ->
  let '(s', apps') := run_fetcher s apps L pages in
  (forall k, ~ In k (map fst L) -> apps' !! k = apps !! k)
  /\ (forall id a, In (id, a) L ->
        exists a', apps' !! id = Some a' /\ ta_name a' = ta_name a /\ ta_is_active a' = ta_is_active a
        /\ last_fetch_of a' = snd (fetch_cycle s id (last_fetch_of a) (pages id)))
  /\ (forall k r, s !! k = Some r -> s' !! k = Some r).
Proof.
  induction L as [|[id a] rest IH]; intros s apps Hnd Hin; cbn [run_fetcher fst map In].
  - refine (conj (fun _ _ => eq_refl) (conj _ (fun _ _ H => H))). intros id a [].
  - inversion Hnd as [|? ? Hnot Hnd']; subst.
    pose proof (fetch_app_spec s apps id a (pages id)) as Hf.
    destruct (fetch_app s apps (id, a) (pages id)) as [s1 apps1].
    destruct Hf as (Hs1 & Hother & _ & Hself).
    assert (Hin1 : forall id' a', In (id', a') rest -> apps1 !! id' = Some a').
    { intros id' a' Hr. rewrite Hother; [apply Hin; right; exact Hr|].
      intros ->. apply Hnot. apply list_elem_of_In, in_map_iff. exists (id, a'). split; [reflexivity|exact Hr]. }
    specialize (IH s1 apps1 Hnd' Hin1).
    destruct (run_fetcher s1 apps1 rest pages) as [s' apps'].
    destruct IH as (Hk & Hl & Hs).
    refine (conj _ (conj _ _)).
    + intros k Hk'. rewrite Hk by (intros Hr; apply Hk'; right; exact Hr).
      apply Hother. intros ->. apply Hk'. left. reflexivity.
    + intros id' a' [Heq|Hr].
      * injection Heq as <- <-.
        destruct (Hself (Hin id a (or_introl eq_refl))) as (a1 & Ha1 & Hn1 & Hact1 & Hm1).
        exists a1. rewrite Hk by (intros H; apply Hnot; apply list_elem_of_In; exact H). split; [exact Ha1|split; [exact Hn1|split; [exact Hact1|exact Hm1]]].
      * destruct (Hl id' a' Hr) as (a1 & Ha1 & Hn1 & Hact1 & Hm1).
        exists a1. split; [exact Ha1|split; [exact Hn1|split; [exact Hact1|]]].
        rewrite Hm1. apply fetch_cycle_mark_store_free.
    + intros k r Hr. apply Hs. rewrite Hs1. apply fetch_cycle_store_keeps. exact Hr.
Qed.

Lemma NoDup_fst_filter {A} (f : Z * A -> bool) (l : list (Z * A)) :
  NoDup (fst <$> l) -> NoDup (map fst (List.filter f l)).
Proof.
  induction l as [|x l IH]; intros Hnd; simpl; [constructor|].
  inversion Hnd as [|? ? Hnot Hnd']; subst.
  destruct (f x); simpl; [|exact (IH Hnd')].
  constructor; [|exact (IH Hnd')].
  intros Hin. apply Hnot. apply list_elem_of_In, in_map_iff in Hin.
  destruct Hin as (y & Hy & Hin). apply filter_In in Hin. destruct Hin as [Hin _].
  apply list_elem_of_fmap. exists y. split; [symmetry; exact Hy|apply list_elem_of_In; exact Hin].
Qed.

Lemma In_active_apps (apps : gmap Z tracked_app) (id : Z) (a : tracked_app) :
  In (id, a) (get_active_tracked_apps apps) <-> apps !! id = Some a /\ ta_is_active a = true.
Proof.
  unfold get_active_tracked_apps. rewrite filter_In, <- list_elem_of_In, elem_of_map_to_list.
  reflexivity.
Qed.

(** [run_fetcher] over the active apps, in whatever order the query
    returns them. An inactive app's row is left unchanged. An active
    app keeps its name and active flag, and its effective mark
    ([last_fetched_timestamp or 0]) becomes the mark that one fetch cycle
    of that app alone gives, whatever the other apps fetch. No app row is
    added or removed, and no stored review is overwritten or deleted. *)
Theorem run_fetcher_marks (s : gmap Z row) (apps : gmap Z tracked_app)
    (apps_to_check : list (Z * tracked_app)) (pages : Z -> list response) :
  Permutation apps_to_check (get_active_tracked_apps apps) ->
  let '(s', apps') := run_fetcher s apps apps_to_check pages in
  (forall id a, apps !! id = Some a -> ta_is_active a = false -> apps' !! id = Some a)
  /\ (forall id a, apps !! id = Some a -> ta_is_active a = true ->
        exists a', apps' !! id = Some a' /\ ta_name a' = ta_name a /\ ta_is_active a' = true
        /\ last_fetch_of a' = snd (fetch_cycle s id (last_fetch_of a) (pages id)))
  /\ (forall id, apps' !! id = None <-> apps !! id = None)
  /\ (forall k r, s !! k = Some r -> s' !! k = Some r).
Proof.
  intros Hperm.
  assert (Hnd : NoDup (map fst apps_to_check)).
  { apply (NoDup_Permutation_proper _ _ (Permutation_map fst Hperm)).
    apply NoDup_fst_filter, NoDup_fst_map_to_list. }
  assert (Hin : forall id a, In (id, a) apps_to_check <-> apps !! id = Some a /\ ta_is_active a = true).
  { intros id a. rewrite <- In_active_apps. split; [apply Permutation_in|apply Permutation_in];
      [exact Hperm|symmetry; exact Hperm]. }
  pose proof (run_fetcher_spec pages apps_to_check s apps Hnd (fun id a H => proj1 (proj1 (Hin id a) H)))
    as Hspec.
  destruct (run_fetcher s apps apps_to_check pages) as [s' apps'].
  destruct Hspec as (Hout & HL & Hs).
  assert (Hnot : forall id a, apps !! id = Some a -> ta_is_active a = false -> ~ In id (map fst apps_to_check)).
  { intros id a Ha Hact Hm. apply in_map_iff in Hm. destruct Hm as ([id' a'] & Hid & Hm). simpl in Hid. subst id'.
    apply Hin in Hm. destruct Hm as [Ha' Hact']. congruence. }
  refine (conj _ (conj _ (conj _ Hs))).
  - intros id a Ha Hact. rewrite Hout by exact (Hnot id a Ha Hact). exact Ha.
  - intros id a Ha Hact. destruct (HL id a (proj2 (Hin id a) (conj Ha Hact))) as (a' & H1 & H2 & H3 & H4).
    exists a'. split; [exact H1|split; [exact H2|split; [congruence|exact H4]]].
  - intros id. destruct (apps !! id) as [a|] eqn:Ha.
    + destruct (ta_is_active a) eqn:Hact.
      * destruct (HL id a (proj2 (Hin id a) (conj Ha Hact))) as (a' & H1 & _). rewrite H1.
        split; discriminate.
      * rewrite Hout by exact (Hnot id a Ha Hact). rewrite Ha. split; discriminate.
    + rewrite Hout; [rewrite Ha; split; reflexivity|].
      intros Hm. apply in_map_iff in Hm. destruct Hm as ([id' a'] & Hid & Hm). simpl in Hid. subst id'.
      apply Hin in Hm. destruct Hm as [Ha' _]. congruence.
Qed.

Lemma run_fetcher_marks_witness :
  Permutation (get_active_tracked_apps (<[730%Z := mkTrackedApp "CS" true (Some 100)]> ∅))
              (get_active_tracked_apps (<[730%Z := mkTrackedApp "CS" true (Some 100)]> ∅))
  /\ let '(s', apps') := run_fetcher ∅ (<[730%Z := mkTrackedApp "CS" true (Some 100)]> ∅)
                           (get_active_tracked_apps (<[730%Z := mkTrackedApp "CS" true (Some 100)]> ∅))
                           (fun _ => [Resp_json true (Some [mkReviewData 1 "english" "ok" 150 (Some true)]) None]) in
     (<[730%Z := mkTrackedApp "CS" true (Some 100)]> (∅ : gmap Z tracked_app)) !! 730%Z
       = Some (mkTrackedApp "CS" true (Some 100))
     -> exists a', apps' !! 730%Z = Some a' /\ last_fetch_of a' = 150.
Proof.
  split; [reflexivity|].
  pose proof (run_fetcher_marks ∅ (<[730%Z := mkTrackedApp "CS" true (Some 100)]> ∅)
                (get_active_tracked_apps (<[730%Z := mkTrackedApp "CS" true (Some 100)]> ∅))
                (fun _ => [Resp_json true (Some [mkReviewData 1 "english" "ok" 150 (Some true)]) None])
                (Permutation_refl _)) as H.
  destruct (run_fetcher _ _ _ _) as [s' apps'].
  destruct H as (_ & Hact & _). intros Ha.
  destruct (Hact 730%Z _ Ha eq_refl) as (a' & H1 & _ & _ & H4).
  exists a'. split; [exact H1|rewrite H4; reflexivity].
Defined.

(** An app newly added with [add_tracked_app] (with an [app_id] in the
    [int4] range and a name the column stores as given: no NUL, at most
    255 characters) is fetched by the next [run_fetcher] from timestamp 0,
    that is with no cutoff:
    it stays active under its name, and its effective mark becomes the
    mark of one fetch cycle from 0. That mark is at least the timestamp
    of every review that [fetch_reviews] hands back when called with no
    [after_timestamp]. A call whose [app_id] is outside [int4] (such as
    9999999999, which passes [isdigit]) or whose name the column refuses
    adds nothing. *)
Theorem added_app_first_run (s : gmap Z row) (apps : gmap Z tracked_app) (id : Z) (n : string)
    (apps_to_check : list (Z * tracked_app)) (pages : Z -> list response) :
  apps !! id = None -> in_int4 id = true -> stored_name n = Some n ->
  Permutation apps_to_check (get_active_tracked_apps (add_tracked_app apps id (Some n))) ->
  (forall (k : Z) (m : string), in_int4 k = false \/ stored_name m = None -> add_tracked_app apps k (Some m) = apps)
  /\ let '(s', apps') := run_fetcher s (add_tracked_app apps id (Some n)) apps_to_check pages in
  exists a', apps' !! id = Some a' /\ ta_name a' = n /\ ta_is_active a' = true
  /\ last_fetch_of a' = snd (fetch_cycle s id 0 (pages id))
  /\ (forall r, In r (fst (fst (fetch_reviews None (pages id)))) -> rd_timestamp_created r <= last_fetch_of a').
Proof.
  intros Hnone Hint Hname Hperm. split.
  { intros k m [Hk|Hm]; unfold add_tracked_app; [rewrite Hk; reflexivity|].
    rewrite Hm. destruct (in_int4 k); reflexivity. }
  pose proof (run_fetcher_marks s (add_tracked_app apps id (Some n)) apps_to_check pages Hperm) as H.
  destruct (run_fetcher s (add_tracked_app apps id (Some n)) apps_to_check pages) as [s' apps'].
  destruct H as (_ & Hact & _).
  assert (Ha : add_tracked_app apps id (Some n) !! id = Some (mkTrackedApp n true (Some 0))).
  { unfold add_tracked_app. rewrite Hint, Hname, Hnone. apply lookup_insert_eq. }
  destruct (Hact id _ Ha eq_refl) as (a' & H1 & H2 & H3 & H4).
  exists a'. split; [exact H1|split; [exact H2|split; [exact H3|split; [exact H4|]]]].
  intros r Hr. rewrite H4. cbn [last_fetch_of ta_last_fetched_timestamp].
  pose proof (SteamFacts.fetch_cycle_mark s id 0 (pages id) ltac:(lia)) as Hm.
  cbv zeta in Hm. destruct (fetch_cycle s id 0 (pages id)) as [s0 m].
  destruct Hm as (_ & _ & Hle). apply Hle. rewrite SteamFacts.fetch_reviews_zero. exact Hr.
Qed.

Lemma added_app_first_run_witness :
  (∅ : gmap Z tracked_app) !! 730%Z = None /\ in_int4 730 = true /\ stored_name "CS" = Some "CS"
  /\ Permutation (get_active_tracked_apps (add_tracked_app ∅ 730%Z (Some "CS")))
                 (get_active_tracked_apps (add_tracked_app ∅ 730%Z (Some "CS")))
  /\ let '(s', apps') := run_fetcher ∅ (add_tracked_app ∅ 730%Z (Some "CS"))
                           (get_active_tracked_apps (add_tracked_app ∅ 730%Z (Some "CS")))
                           (fun _ => [Resp_json true (Some [mkReviewData 1 "english" "ok" 150 (Some true)]) None]) in
     exists a', apps' !! 730%Z = Some a' /\ last_fetch_of a' = 150.
Proof.
  split; [reflexivity|split; [reflexivity|split; [reflexivity|split; [reflexivity|]]]].
  pose proof (added_app_first_run ∅ ∅ 730%Z "CS"
                (get_active_tracked_apps (add_tracked_app ∅ 730%Z (Some "CS")))
                (fun _ => [Resp_json true (Some [mkReviewData 1 "english" "ok" 150 (Some true)]) None])
                eq_refl eq_refl eq_refl (Permutation_refl _)) as [_ H].
  destruct (run_fetcher _ _ _ _) as [s' apps'].
  destruct H as (a' & H1 & _ & _ & H4 & _).
  exists a'. split; [exact H1|rewrite H4; reflexivity].
Defined.

(** Pausing an active app with [update_app_active_status(.., False)]
    takes it out of the active list and so out of the fetcher's runs.
    Resuming it with [update_app_active_status(.., True)] restores its
    row exactly, mark included: a paused app resumes from where it
    stopped, and is not fetched again from scratch. *)
Theorem pause_resume_app (apps : gmap Z tracked_app) (id : Z) (a : tracked_app) :
  apps !! id = Some a -> ta_is_active a = true ->
  (forall b, ~ In (id, b) (get_active_tracked_apps (update_app_active_status apps id false)))
  /\ update_app_active_status (update_app_active_status apps id false) id true = apps.
Proof.
  intros Ha Hact. split.
  - intros b Hin. apply In_active_apps in Hin. destruct Hin as [Hb Hbact].
    unfold update_app_active_status in Hb. rewrite Ha, lookup_insert_eq in Hb.
    injection Hb as <-. discriminate Hbact.
  - unfold update_app_active_status. rewrite Ha, lookup_insert_eq. simpl.
    rewrite insert_insert_eq. apply insert_id. rewrite Ha.
    destruct a as [n act last]. simpl in Hact. subst act. reflexivity.
Qed.

Lemma pause_resume_app_witness :
  (<[730%Z := mkTrackedApp "CS" true (Some 100)]> (∅ : gmap Z tracked_app)) !! 730%Z
    = Some (mkTrackedApp "CS" true (Some 100))
  /\ ta_is_active (mkTrackedApp "CS" true (Some 100)) = true
  /\ update_app_active_status
       (update_app_active_status (<[730%Z := mkTrackedApp "CS" true (Some 100)]> ∅) 730%Z false) 730%Z true
     = <[730%Z := mkTrackedApp "CS" true (Some 100)]> ∅.
Proof.
  split; [reflexivity|split; [reflexivity|]].
  exact (proj2 (pause_resume_app (<[730%Z := mkTrackedApp "CS" true (Some 100)]> ∅) 730%Z _ eq_refl eq_refl)).
Defined.

End TrackedFacts.

(* ------------------------------------------------------------------ *)
(** * The YouTube tables: transcript stage and analyzer worker *)
(* ------------------------------------------------------------------ *)
Module YouTubeStoreFacts.
Import Persist YouTube YouTubeStore.

Lemma store_keyed_absent (st : yt_store) (vid : string) :
  store_keyed st -> yt_videos st !! vid = None ->
  yt_transcript_status st !! vid = None /\ yt_analysis_status st !! vid = None /\
  yt_transcripts st !! vid = None /\ yt_analyses st !! vid = None.
Proof.
  intros (H1 & H2 & H3 & H4) Hv.
  repeat split; apply eq_None_not_Some; intros Hs;
    [apply H1 in Hs | apply H2 in Hs | apply H3 in Hs | apply H4 in Hs];
    rewrite Hv in Hs; destruct Hs; discriminate.
Qed.
Lemma transcript_stage_new (st : yt_store) (vid : string) (r : worker_result) (tenv : transcript_env) (v : video) :
  yt_videos st !! vid = Some v -> yt_transcript_status st !! vid = Some "pending" ->
  yt_transcripts st !! vid = None ->
  let '(r', st') := transcript_stage st vid r tenv in
  yt_videos st' = yt_videos st /\ yt_analysis_status st' = yt_analysis_status st /\
  yt_analyses st' = yt_analyses st /\
  (forall k, k <> vid -> yt_transcript_status st' !! k = yt_transcript_status st !! k
                        /\ yt_transcripts st' !! k = yt_transcripts st !! k) /\
  wr_new_video_added r' = wr_new_video_added r /\
  (is_Some (yt_transcripts st' !! vid) -> wr_transcript_fetched r' = true) /\
  (yt_transcript_status st' !! vid = Some "fetched" -> wr_transcript_fetched r' = true) /\
  (status_update_db_ok tenv vid = true ->
     (wr_transcript_fetched r' = true <-> yt_transcript_status st' !! vid = Some "fetched") /\
     (wr_transcript_failed r' = true <-> yt_transcript_status st' !! vid = Some "failed") /\
     (wr_transcript_unavailable r' = true <-> yt_transcript_status st' !! vid = Some "unavailable") /\
     (wr_transcript_fetched r' = true -> is_Some (yt_transcripts st' !! vid))).
Proof.
  intros Hv Hts Htr. unfold transcript_stage, add_transcript, update_video_transcript_status.
  destruct (status_update_db_ok tenv vid) eqn:Hu; cbn;
  destruct (get_transcript tenv vid) as [tt|]; cbn; [| rewrite Hts, Htr; repeat split; done| | rewrite Hts, Htr; repeat split; done];
  repeat (case_match; simplify_eq/=); rewrite ?Hv, ?Htr, ?Hts; cbn;
  simplify_map_eq; repeat split; intros; simplify_map_eq; try done.
Qed.

Lemma transcript_stage_local (st : yt_store) (vid : string) (r : worker_result) (tenv : transcript_env) k :
  k <> vid ->
  let st' := snd (transcript_stage st vid r tenv) in
  yt_videos st' = yt_videos st /\ yt_analysis_status st' = yt_analysis_status st /\
  yt_analyses st' = yt_analyses st /\
  yt_transcript_status st' !! k = yt_transcript_status st !! k /\
  yt_transcripts st' !! k = yt_transcripts st !! k.
Proof.
  intros Hk. unfold transcript_stage, add_transcript, update_video_transcript_status.
  destruct (status_update_db_ok tenv vid); cbn;
  destruct (get_transcript tenv vid) as [tt|]; cbn; try (repeat split; done);
  repeat (case_match; simplify_eq/=); cbn; repeat split; simplify_map_eq; done.
Qed.

Lemma worker_keeps_stored (st : yt_store) (vid' vid ch : string) (env : video_env) (tenv : transcript_env)
    (cutoff : Z) (v : video) :
  yt_videos st !! vid = Some v ->
  let st' := snd (process_single_video_full st vid' ch env tenv cutoff) in
  yt_videos st' !! vid = Some v /\
  yt_transcript_status st' !! vid = yt_transcript_status st !! vid /\
  yt_analysis_status st' !! vid = yt_analysis_status st !! vid /\
  yt_transcripts st' !! vid = yt_transcripts st !! vid /\
  yt_analyses st' !! vid = yt_analyses st !! vid.
Proof.
  intros Hv. cbn zeta. unfold process_single_video_full, process_single_video, add_video.
  destruct (decide (vid' = vid)) as [<-|Hne].
  { rewrite Hv. cbn. repeat split; done. }
  destruct (yt_videos st !! vid'); cbn; [repeat split; done|].
  destruct (get_video_metadata env vid'); cbn; [|repeat split; done].
  destruct (_ <=? _)%Z; cbn; [repeat split; done|].
  destruct (add_video_db_ok env vid'); cbn; [|repeat split; done].
  match goal with |- context [transcript_stage ?s1 vid' ?r1 tenv] =>
    destruct (transcript_stage_local s1 vid' r1 tenv vid ltac:(congruence)) as (H1 & H2 & H3 & H4 & H5) end.
  cbn in *. rewrite H1, H2, H3, H4, H5. simplify_map_eq. repeat split; done.
Qed.

Lemma run_videos_full_keeps_stored (ids : list string) (st : yt_store) (vid ch : string) (env : video_env)
    (tenv : transcript_env) (cutoff highest : Z) (v : video) :
  yt_videos st !! vid = Some v ->
  let st' := snd (run_videos_full st ids ch env tenv cutoff highest) in
  yt_videos st' !! vid = Some v /\
  yt_transcript_status st' !! vid = yt_transcript_status st !! vid /\
  yt_analysis_status st' !! vid = yt_analysis_status st !! vid /\
  yt_transcripts st' !! vid = yt_transcripts st !! vid /\
  yt_analyses st' !! vid = yt_analyses st !! vid.
Proof.
  revert st highest. induction ids as [|vid' rest IH]; intros st highest Hv; cbn zeta; cbn [run_videos_full].
  - repeat split; done.
  - pose proof (worker_keeps_stored st vid' vid ch env tenv cutoff v Hv) as Hw.
    destruct (process_single_video_full st vid' ch env tenv cutoff) as [r st1]. cbn in Hw.
    destruct Hw as (H1 & H2 & H3 & H4 & H5).
    destruct (IH st1 (if wr_new_video_added r then Z.max highest (wr_upload_timestamp r) else highest) H1)
      as (G1 & G2 & G3 & G4 & G5).
    repeat split; congruence.
Qed.

Lemma store_keyed_empty : store_keyed (mkYtStore ∅ ∅ ∅ ∅ ∅).
Proof.
  unfold store_keyed; cbn. split; [|split; [|split]]; intros k; rewrite ?lookup_empty;
    repeat split; intros [? H]; discriminate H.
Qed.













Lemma analyze_one_frame (st : yt_store) (aenv : analyzer_env) (vid : string) :
  let st' := analyze_one st aenv vid in
  yt_videos st' = yt_videos st /\ yt_transcript_status st' = yt_transcript_status st /\
  yt_transcripts st' = yt_transcripts st /\
  (forall k, k <> vid -> yt_analysis_status st' !! k = yt_analysis_status st !! k /\
                        yt_analyses st' !! k = yt_analyses st !! k).
Proof.
  cbn zeta. unfold analyze_one, add_or_update_analysis, update_video_analysis_status.
  repeat (case_match; simplify_eq/=); cbn; repeat split; intros; simplify_map_eq; done.
Qed.

Lemma analyze_one_settles (st : yt_store) (aenv : analyzer_env) (vid : string) (v : video) :
  yt_videos st !! vid = Some v -> analysis_status_db_ok aenv vid = true ->
  analysis_settled (analyze_one st aenv vid) vid.
Proof.
  intros Hv Hu. unfold analysis_settled, analyze_one, add_or_update_analysis, update_video_analysis_status.
  rewrite Hu. cbn.
  repeat (case_match; simplify_eq/=); cbn; rewrite ?Hv in *; simplify_eq/=; simplify_map_eq; eauto 10.
Qed.

Lemma analyzer_fold (l done_ : list string) (st : yt_store) (aenv : analyzer_env) :
  (forall vid, In vid l -> is_Some (yt_videos st !! vid)) ->
  (forall vid, analysis_status_db_ok aenv vid = true) ->
  (forall vid, In vid done_ -> analysis_settled st vid) ->
  let st' := fold_left (fun acc vid => analyze_one acc aenv vid) l st in
  yt_videos st' = yt_videos st /\ yt_transcript_status st' = yt_transcript_status st /\
  yt_transcripts st' = yt_transcripts st /\
  (forall k, ~ In k l -> yt_analysis_status st' !! k = yt_analysis_status st !! k /\
                        yt_analyses st' !! k = yt_analyses st !! k) /\
  (forall vid, In vid l \/ In vid done_ -> analysis_settled st' vid).
Proof.
  revert done_ st. induction l as [|x l IH]; intros done_ st Hin Hu Hd; cbn zeta; cbn [fold_left].
  - repeat split; try done. intros vid [[]|H]. exact (Hd vid H).
  - destruct (analyze_one_frame st aenv x) as (F1 & F2 & F3 & F4).
    destruct (Hin x (or_introl eq_refl)) as [v Hv].
    assert (Hd' : forall vid, In vid (x :: done_) -> analysis_settled (analyze_one st aenv x) vid).
    { intros vid [Heq|H]; [subst vid; exact (analyze_one_settles st aenv x v Hv (Hu x))|].
      destruct (decide (vid = x)) as [->|Hne]; [exact (analyze_one_settles st aenv x v Hv (Hu x))|].
      destruct (F4 vid Hne) as [G1 G2]. unfold analysis_settled. rewrite G1, G2. exact (Hd vid H). }
    assert (Hin' : forall vid, In vid l -> is_Some (yt_videos (analyze_one st aenv x) !! vid))
      by (intros vid H; rewrite F1; apply Hin; right; exact H).
    destruct (IH (x :: done_) (analyze_one st aenv x) Hin' Hu Hd') as (E1 & E2 & E3 & E4 & E5).
    split; [congruence|]. split; [congruence|]. split; [congruence|]. split.
    + intros k Hk. destruct (E4 k (fun H => Hk (or_intror H))) as [G1 G2].
      destruct (F4 k (fun H => Hk (or_introl (eq_sym H)))) as [K1 K2]. split; congruence.
    + intros vid [[<-|H]|H]; apply E5; [right; left; reflexivity | left; exact H | right; right; exact H].
Qed.

Lemma In_videos_for_analysis (st : yt_store) (n : nat) (vid : string) :
  In vid (get_videos_for_analysis st n) ->
  is_Some (yt_videos st !! vid) /\ analysis_eligible st vid = true.
Proof.
  intros H. apply QueueFacts.In_firstn_In, filter_In in H as [H He]. split; [|exact He].
  apply in_map_iff in H as [[k v] [Hk H]]. cbn in Hk. subst k.
  apply list_elem_of_In, elem_of_map_to_list in H. eauto.
Qed.

(** X6 (transcript stage of [_process_single_video], [add_transcript],
    [get_videos_for_analysis]): for a video not yet stored, the worker's
    flags and the stored transcript status agree. A video enters the
    analysis queue only if the worker reported [transcript_fetched]; when
    the status UPDATEs commit, the [transcript_fetched], [transcript_failed]
    and [transcript_unavailable] flags are exactly the statuses ['fetched'],
    ['failed'] and ['unavailable'], and the video is queued for analysis
    exactly when [transcript_fetched] is set. *)
Theorem new_video_transcript_outcome (st : yt_store) (vid ch : string) (env : video_env)
    (tenv : transcript_env) (cutoff : Z) (r : worker_result) (st' : yt_store) :
  store_keyed st -> yt_videos st !! vid = None ->
  process_single_video_full st vid ch env tenv cutoff = (r, st') ->
  (analysis_eligible st' vid = true -> wr_transcript_fetched r = true) /\
  (status_update_db_ok tenv vid = true ->
     (wr_transcript_fetched r = true <-> yt_transcript_status st' !! vid = Some "fetched") /\
     (wr_transcript_failed r = true <-> yt_transcript_status st' !! vid = Some "failed") /\
     (wr_transcript_unavailable r = true <-> yt_transcript_status st' !! vid = Some "unavailable") /\
     analysis_eligible st' vid = wr_transcript_fetched r).
Proof.
  intros Hk Hnone Hrun. destruct (store_keyed_absent st vid Hk Hnone) as (Hts0 & Has0 & Htr0 & _).
  unfold process_single_video_full, process_single_video in Hrun. rewrite Hnone in Hrun.
  assert (Hplain : yt_transcript_status st' !! vid = None -> yt_analysis_status st' !! vid = None ->
                   wr_transcript_fetched r = false -> wr_transcript_failed r = false ->
                   wr_transcript_unavailable r = false ->
                   (analysis_eligible st' vid = true -> wr_transcript_fetched r = true) /\
                   (status_update_db_ok tenv vid = true ->
                     (wr_transcript_fetched r = true <-> yt_transcript_status st' !! vid = Some "fetched") /\
                     (wr_transcript_failed r = true <-> yt_transcript_status st' !! vid = Some "failed") /\
                     (wr_transcript_unavailable r = true <-> yt_transcript_status st' !! vid = Some "unavailable") /\
                     analysis_eligible st' vid = wr_transcript_fetched r)).
  { intros H1 H2 H3 H4 H5. unfold analysis_eligible. rewrite H1, H2, H3, H4, H5.
    split; [done|]. intros _. repeat split; done. }
  destruct (get_video_metadata env vid) as [ud|]; cbn in Hrun.
  2:{ injection Hrun as <- <-. apply Hplain; done. }
  destruct (_ <=? _)%Z; cbn in Hrun.
  { injection Hrun as <- <-. apply Hplain; done. }
  unfold add_video in Hrun. destruct (add_video_db_ok env vid); cbn in Hrun.
  2:{ injection Hrun as <- <-. apply Hplain; done. }
  rewrite Hnone in Hrun. cbn in Hrun.
  match type of Hrun with transcript_stage ?s1 _ _ _ = _ =>
    pose proof (transcript_stage_new s1 vid (of_video_result (mkVideoResult "processing" true
      (match ud with Some t => t | None => 0 end)%Z)) tenv (mkVideo ch ud)) as Hst end.
  cbn in Hst. rewrite !lookup_insert_eq in Hst. rewrite Hrun in Hst.
  destruct (Hst eq_refl eq_refl Htr0) as (_ & Has & _ & _ & _ & Htrf & Hf & Hok).
  assert (Hpend : yt_analysis_status st' !! vid = Some "pending")
    by (rewrite Has; cbn; apply lookup_insert_eq).
  unfold analysis_eligible. rewrite Hpend. split.
  - intros He. apply Hf. apply andb_prop in He as [He _]. apply andb_prop in He as [He _].
    exact (bool_decide_eq_true_1 _ He).
  - intros Hu. destruct (Hok Hu) as (Hfe & Hfa & Hun & Hsome). repeat split; try tauto.
    destruct (wr_transcript_fetched r) eqn:Hw.
    + rewrite (bool_decide_eq_true_2 _ (proj1 Hfe eq_refl)). cbn.
      rewrite (bool_decide_eq_true_2 _ (Hsome eq_refl)). reflexivity.
    + destruct (bool_decide (yt_transcript_status st' !! vid = Some "fetched")) eqn:Hb; [|reflexivity].
      apply bool_decide_eq_true_1 in Hb. apply Hfe in Hb. discriminate.
Qed.


Lemma analyzer_fold_frame (l : list string) (st : yt_store) (aenv : analyzer_env) (vid : string) :
  ~ In vid l ->
  let st' := fold_left (fun acc x => analyze_one acc aenv x) l st in
  yt_videos st' = yt_videos st /\ yt_transcript_status st' = yt_transcript_status st /\
  yt_analysis_status st' !! vid = yt_analysis_status st !! vid.
Proof.
  revert st. induction l as [|x l IH]; intros st Hn; cbn zeta; cbn [fold_left]; [done|].
  destruct (analyze_one_frame st aenv x) as (F1 & F2 & _ & F4).
  destruct (IH (analyze_one st aenv x) (fun H => Hn (or_intror H))) as (E1 & E2 & E3).
  destruct (F4 vid (fun H => Hn (or_introl (eq_sym H)))) as [G _].
  split; [congruence|]. split; congruence.
Qed.

(** X8 (worker exception after [add_video]): when the transcript fetch of
    a newly added video raises, the worker reports ["worker_exception"]
    and the video stays stored with transcript and analysis status
    ['pending'] ([stuck_pending]). That state is kept by every later run
    of a channel's video loop (the video is skipped as already stored), by
    every analyzer run, and by [update_video_analysis_status] setting
    ['pending'] (what scripts/reset_video_analysis_status.py does), and a
    video in that state is never eligible for analysis. *)
Theorem transcript_raised_stays_pending :
  (forall (st : yt_store) (vid ch : string) (env : video_env) (tenv : transcript_env) (cutoff : Z)
          (r : worker_result) (st1 : yt_store),
     yt_videos st !! vid = None -> get_transcript tenv vid = None ->
     process_single_video_full st vid ch env tenv cutoff = (r, st1) ->
     is_Some (yt_videos st1 !! vid) ->
     wr_status r = "worker_exception" /\ stuck_pending st1 vid) /\
  (forall (st : yt_store) (vid : string) (ids : list string) (ch : string) (env : video_env)
          (tenv : transcript_env) (cutoff highest : Z),
     stuck_pending st vid -> stuck_pending (snd (run_videos_full st ids ch env tenv cutoff highest)) vid) /\
  (forall (st : yt_store) (vid : string) (aenv : analyzer_env),
     stuck_pending st vid -> stuck_pending (run_youtube_analyzer st aenv) vid) /\
  (forall (st : yt_store) (vid vid' : string) (ok : bool),
     stuck_pending st vid -> stuck_pending (snd (update_video_analysis_status st vid' "pending" ok)) vid) /\
  (forall (st : yt_store) (vid : string), stuck_pending st vid -> analysis_eligible st vid = false).
Proof.
  assert (Hne : forall st vid, stuck_pending st vid -> analysis_eligible st vid = false).
  { intros st vid (_ & Hts & _). unfold analysis_eligible. rewrite Hts. reflexivity. }
  split; [|split; [|split; [|split]]].
  - intros st vid ch env tenv cutoff r st1 Hnone Hg Hrun [v Hv].
    unfold process_single_video_full, process_single_video, add_video in Hrun. rewrite Hnone in Hrun.
    destruct (get_video_metadata env vid) as [ud|]; cbn in Hrun.
    2:{ injection Hrun as _ <-. cbn in Hv. congruence. }
    destruct (_ <=? _)%Z; cbn in Hrun.
    { injection Hrun as _ <-. cbn in Hv. congruence. }
    destruct (add_video_db_ok env vid); cbn in Hrun.
    2:{ injection Hrun as _ <-. cbn in Hv. congruence. }
    cbn in Hrun.
    unfold transcript_stage in Hrun. rewrite Hg in Hrun. injection Hrun as <- <-.
    split; [reflexivity|]. unfold stuck_pending. cbn. rewrite !lookup_insert_eq. split; [eexists; reflexivity|]. done.
  - intros st vid ids ch env tenv cutoff highest ([v Hv] & Hts & Has).
    destruct (run_videos_full_keeps_stored ids st vid ch env tenv cutoff highest v Hv) as (H1 & H2 & H3 & _).
    split; [eexists; exact H1|]. split; congruence.
  - intros st vid aenv Hs. pose proof (Hne st vid Hs) as He.
    assert (Hn : ~ In vid (get_videos_for_analysis st BATCH_SIZE)).
    { intros Hin. apply In_videos_for_analysis in Hin as [_ Hin]. congruence. }
    destruct Hs as (Hv & Hts & Has). unfold run_youtube_analyzer.
    destruct (analyzer_fold_frame (get_videos_for_analysis st BATCH_SIZE) st aenv vid Hn) as (E1 & E2 & E3).
    split; [rewrite E1; exact Hv|]. split; [rewrite E2; exact Hts|]. rewrite E3; exact Has.
  - intros st vid vid' ok (Hv & Hts & Has). unfold update_video_analysis_status.
    destruct ok; cbn; [|split; [exact Hv|split; assumption]].
    destruct (yt_videos st !! vid'); cbn; [|split; [exact Hv|split; assumption]].
    split; [exact Hv|]. split; [exact Hts|].
    cbn. destruct (decide (vid = vid')) as [->|Hneq]; [apply lookup_insert_eq|].
    rewrite lookup_insert_ne by congruence. exact Has.
  - exact Hne.
Qed.

(** X9 ([run_youtube_analyzer]): when the analysis status UPDATEs
    commit, every video of the batch ends ['analyzed'] with a stored
    relevant analysis, ['irrelevant'] with a stored irrelevant analysis, or
    ['failed'], and leaves the analysis queue; the videos outside the batch
    keep their analysis status and row, and the video rows, transcript
    statuses and transcripts are unchanged. *)
Theorem run_youtube_analyzer_settles (st : yt_store) (aenv : analyzer_env) :
  (forall vid, analysis_status_db_ok aenv vid = true) ->
  let st' := run_youtube_analyzer st aenv in
  yt_videos st' = yt_videos st /\ yt_transcript_status st' = yt_transcript_status st /\
  yt_transcripts st' = yt_transcripts st /\
  (forall vid, ~ In vid (get_videos_for_analysis st BATCH_SIZE) ->
     yt_analysis_status st' !! vid = yt_analysis_status st !! vid /\
     yt_analyses st' !! vid = yt_analyses st !! vid) /\
  (forall vid, In vid (get_videos_for_analysis st BATCH_SIZE) ->
     analysis_settled st' vid /\ analysis_eligible st' vid = false).
Proof.
  intros Hu. cbn zeta. unfold run_youtube_analyzer.
  destruct (analyzer_fold (get_videos_for_analysis st BATCH_SIZE) [] st aenv
              (fun vid H => proj1 (In_videos_for_analysis st _ vid H)) Hu (fun _ H => match H with end))
    as (E1 & E2 & E3 & E4 & E5).
  split; [assumption|]. split; [assumption|]. split; [assumption|]. split.
  - intros vid H. apply E4, H.
  - intros vid H. split; [apply E5; left; exact H|]. specialize (E5 vid (or_introl H)). unfold analysis_eligible.
    destruct E5 as [[-> _] | [[-> _] | ->]]; cbn; rewrite andb_false_r; reflexivity.
Qed.

Lemma new_video_transcript_outcome_witness :
  let env := mkVideoEnv (fun _ => Some (Some 100%Z)) (fun _ => true) in
  let tenv := mkTranscriptEnv (fun _ => Some (Some "gg")) (fun _ => true) (fun _ => true) in
  let res := process_single_video_full (mkYtStore ∅ ∅ ∅ ∅ ∅) "v1" "c1" env tenv 50 in
  (analysis_eligible res.2 "v1" = true -> wr_transcript_fetched res.1 = true) /\
  (status_update_db_ok tenv "v1" = true ->
     (wr_transcript_fetched res.1 = true <-> yt_transcript_status res.2 !! "v1" = Some "fetched") /\
     (wr_transcript_failed res.1 = true <-> yt_transcript_status res.2 !! "v1" = Some "failed") /\
     (wr_transcript_unavailable res.1 = true <-> yt_transcript_status res.2 !! "v1" = Some "unavailable") /\
     analysis_eligible res.2 "v1" = wr_transcript_fetched res.1).
Proof.
  intros env tenv res.
  apply (new_video_transcript_outcome (mkYtStore ∅ ∅ ∅ ∅ ∅) "v1" "c1" env tenv 50 res.1 res.2).
  - exact store_keyed_empty.
  - reflexivity.
  - vm_compute. reflexivity.
Defined.


Lemma transcript_raised_stays_pending_witness :
  let env := mkVideoEnv (fun _ => Some (Some 100%Z)) (fun _ => true) in
  let tenv := mkTranscriptEnv (fun _ => None) (fun _ => true) (fun _ => true) in
  let tenv2 := mkTranscriptEnv (fun _ => Some (Some "gg")) (fun _ => true) (fun _ => true) in
  let aenv := mkAnalyzerEnv (fun _ => Some "G") (fun _ _ => Some (mkVideoAnalysis true []))
                            (fun _ => true) (fun _ => true) in
  let res := process_single_video_full (mkYtStore ∅ ∅ ∅ ∅ ∅) "v1" "c1" env tenv 50 in
  let st2 := snd (run_videos_full res.2 ["v1"; "v2"] "c1" env tenv2 50 0) in
  let st3 := snd (update_video_analysis_status (run_youtube_analyzer st2 aenv) "v1" "pending" true) in
  wr_status res.1 = "worker_exception" /\ stuck_pending st3 "v1" /\ analysis_eligible st3 "v1" = false.
Proof.
  intros env tenv tenv2 aenv res st2 st3.
  destruct transcript_raised_stays_pending as (Hest & Hrun & Hana & Hreset & Hnot).
  destruct (Hest (mkYtStore ∅ ∅ ∅ ∅ ∅) "v1" "c1" env tenv 50 res.1 res.2) as [Hw Hs1].
  - reflexivity.
  - reflexivity.
  - vm_compute. reflexivity.
  - vm_compute. eexists. reflexivity.
  - pose proof (Hreset _ "v1" "v1" true (Hana _ "v1" aenv (Hrun _ "v1" ["v1"; "v2"] "c1" env tenv2 50 0 Hs1))) as Hs3.
    split; [exact Hw|]. split; [exact Hs3|]. exact (Hnot _ _ Hs3).
Defined.

Lemma run_youtube_analyzer_settles_witness :
  let st := mkYtStore (<["v1" := mkVideo "c1" (Some 100%Z)]> ∅) (<["v1" := "fetched"]> ∅)
                      (<["v1" := "pending"]> ∅) (<["v1" := "gg"]> ∅) ∅ in
  let aenv := mkAnalyzerEnv (fun _ => Some "G") (fun _ _ => Some (mkVideoAnalysis true []))
                            (fun _ => true) (fun _ => true) in
  let st' := run_youtube_analyzer st aenv in
  yt_videos st' = yt_videos st /\ yt_transcript_status st' = yt_transcript_status st /\
  yt_transcripts st' = yt_transcripts st /\
  (forall vid, ~ In vid (get_videos_for_analysis st BATCH_SIZE) ->
     yt_analysis_status st' !! vid = yt_analysis_status st !! vid /\
     yt_analyses st' !! vid = yt_analyses st !! vid) /\
  (forall vid, In vid (get_videos_for_analysis st BATCH_SIZE) ->
     analysis_settled st' vid /\ analysis_eligible st' vid = false).
Proof.
  intros st aenv st'. apply (run_youtube_analyzer_settles st aenv). intros vid. reflexivity.
Defined.

End YouTubeStoreFacts.

(* ------------------------------------------------------------------ *)
(** * The YouTube fetcher run: one [process_channel] call per channel *)
(* ------------------------------------------------------------------ *)
Module YouTubeRunFacts.
Import Persist YouTube YouTubeRun.





End YouTubeRunFacts.

(* ------------------------------------------------------------------ *)
(** * The synchronous LLM client: what a returned string can be *)
(* ------------------------------------------------------------------ *)
Module LLMFacts.
Import LLM.

Lemma with_retry_ret (n : nat) (a : call_result) (o : option string) :
  with_retry n a = Ret o -> a = Ret o.
Proof.
  revert a. induction n as [|n IH]; intros a H; destruct a as [o'|e]; cbn in H; try exact H;
    destruct (retry_predicate e) as [[|]|]; try discriminate H; apply IH, H.
Qed.

(** X11 ([call_openai_api]): a string the client returns is never empty:
    it is the stripped [output_text] of a response of the service, or
    ["[REFUSAL: " ++ r ++ "]"] for the refusal [r] of the response's first
    output item. So the callers' [if not result] tests catch exactly the
    [None] results. *)
Theorem call_openai_api_nonempty (client_ok : bool) (llm : oracle) (kws : list (string * pyval)) (s : string) :
  call_openai_api client_ok llm kws = Ret (Some s) ->
  s <> "" /\
  exists input resp, llm input = Some resp /\
    (s = output_text resp \/ exists r, first_refusal resp = Some r /\ s = "[REFUSAL: " ++ r ++ "]").
Proof.
  unfold call_openai_api. intros H. apply with_retry_ret in H.
  destruct (bind_kwargs _ _ _) as [[bound ?]|]; [|discriminate H].
  injection H as H. unfold call_openai_api_body in H.
  destruct client_ok; cbn in H; [|discriminate H].
  destruct (match lookup_kw "prompt" bound with
            | Some (VStr p) => Some [("user", p)]
            | Some (VMessages m) => Some m
            | _ => None end) as [input|]; [|discriminate H].
  destruct (llm input) as [resp|] eqn:Hl; [|discriminate H].
  destruct (Py.str_truthy (output_text resp)) eqn:Ht.
  - injection H as <-. split.
    + intros He. rewrite He in Ht. discriminate Ht.
    + exists input, resp. auto.
  - destruct (first_refusal resp) as [r|] eqn:Hr; [|discriminate H].
    injection H as <-. split; [discriminate|]. exists input, resp. split; [exact Hl|right; exists r; auto].
Qed.

Lemma call_openai_api_nonempty_witness :
  let llm : oracle := fun _ => Some (mkApiResponse "" (Some "policy")) in
  "[REFUSAL: policy]" <> "" /\
  exists input resp, llm input = Some resp /\
    ("[REFUSAL: policy]" = output_text resp \/
     exists r, first_refusal resp = Some r /\ "[REFUSAL: policy]" = "[REFUSAL: " ++ r ++ "]").
Proof.
  intros llm. apply (call_openai_api_nonempty true llm [("prompt", VStr "hi")]). vm_compute. reflexivity.
Defined.

End LLMFacts.
